(* ===================================================================== *)
(* oid4vp-rs: the JSON-schema validator (src/json_schema_validation.rs)  *)
(* and the submission check of a presentation definition                *)
(* (src/core/presentation_definition.rs), embedded in Rocq.              *)
(* ===================================================================== *)

From Stdlib Require Import QArith ZArith String Ascii Bool List Lia Lqa.
From stdpp Require Import base gmap strings list.

Local Open Scope Z_scope.
#[local] Set Warnings "-register-all".

(* --------------------------------------------------------------------- *)
(* Outcomes of a Rust call: Ok, an anyhow error, or a panic.              *)
(* --------------------------------------------------------------------- *)

Inductive outcome (E A : Type) : Type :=
| Ok (a : A)
| Err (e : E)
| Panic (msg : string).
Arguments Ok {E A} a.
Arguments Err {E A} e.
Arguments Panic {E A} msg.

Global Instance outcome_ret E : MRet (outcome E) := fun A a => Ok a.
Global Instance outcome_bind E : MBind (outcome E) :=
  fun A B (k : A -> outcome E B) (m : outcome E A) =>
    match m with
    | Ok a => k a
    | Err e => Err e
    | Panic msg => Panic msg
    end.

(** [.context(..)] on an [Option]: [None] becomes an error. *)
Definition ok_or {E A} (e : E) (o : option A) : outcome E A :=
  match o with Some a => Ok a | None => Err e end.

(** [.context(..)] on a [Result]: the error is wrapped. *)
Definition with_context {E A} (f : E -> E) (m : outcome E A) : outcome E A :=
  match m with Err e => Err (f e) | _ => m end.

(** [bail!(e)] guarded by a condition. *)
Definition bail_if {E} (c : bool) (e : E) : outcome E unit :=
  if c then Err e else Ok ().

(* --------------------------------------------------------------------- *)
(* f64: finite values are exact rationals (every finite double is one),  *)
(* plus the two infinities and NaN. Comparisons follow IEEE 754.         *)
(* --------------------------------------------------------------------- *)

Inductive f64 :=
| F64Fin (q : Q)
| F64Inf (neg : bool)
| F64NaN.

Definition Qltb (x y : Q) : bool := negb (Qle_bool y x).

(** [<] on f64 *)
Definition f64_lt (a b : f64) : bool :=
  match a, b with
  | F64Fin x, F64Fin y => Qltb x y
  | F64Fin _, F64Inf neg => negb neg
  | F64Inf neg, F64Fin _ => neg
  | F64Inf n1, F64Inf n2 => n1 && negb n2
  | _, _ => false
  end.

(** [<=] on f64 *)
Definition f64_le (a b : f64) : bool :=
  match a, b with
  | F64Fin x, F64Fin y => Qle_bool x y
  | F64Fin _, F64Inf neg => negb neg
  | F64Inf neg, F64Fin _ => neg
  | F64Inf n1, F64Inf n2 => n1 || negb n2
  | _, _ => false
  end.

(** [==] on f64 (NaN is equal to nothing, itself included) *)
Definition f64_eqb (a b : f64) : bool :=
  match a, b with
  | F64Fin x, F64Fin y => Qeq_bool x y
  | F64Inf n1, F64Inf n2 => Bool.eqb n1 n2
  | _, _ => false
  end.

(** Truncation of a rational towards zero. *)
Definition Qtrunc (q : Q) : Z := Z.quot (Qnum q) (Zpos (Qden q)).

(** [%] on f64 (C's fmod, which is exact: x - trunc(x / y) * y). *)
Definition f64_rem (a b : f64) : f64 :=
  match a, b with
  | F64Fin x, F64Fin y =>
      if Qeq_bool y 0%Q then F64NaN
      else F64Fin (x - inject_Z (Qtrunc (x / y)) * y)%Q
  | F64Fin x, F64Inf _ => F64Fin x
  | _, _ => F64NaN
  end.

Definition i64_min : Z := - 2 ^ 63.
Definition i64_max : Z := 2 ^ 63 - 1.

(** [x as i64] for a float: truncation, saturating at the bounds, NaN to 0. *)
Definition f64_as_i64 (a : f64) : Z :=
  match a with
  | F64Fin q => Z.max i64_min (Z.min i64_max (Qtrunc q))
  | F64Inf neg => if neg then i64_min else i64_max
  | F64NaN => 0
  end.

(** Round a non-negative [a] divided by [2^e] (e >= 1) to nearest, ties to even. *)
Definition round_ne (a e : Z) : Z :=
  let q := Z.shiftr a e in
  let r := a - Z.shiftl q e in
  let half := Z.shiftl 1 (e - 1) in
  if r <? half then q
  else if half <? r then q + 1
  else if Z.even q then q else q + 1.

(** [x as f64] for a 64-bit integer: exact below 2^53, rounded to a
    53-bit significand above. *)
Definition int_to_f64 (z : Z) : f64 :=
  let a := Z.abs z in
  if a <? 2 ^ 53 then F64Fin (inject_Z z)
  else let e := Z.log2 a - 52 in
       F64Fin (inject_Z (Z.sgn z * Z.shiftl (round_ne a e) e)).

(** [a % b] on i64: Rust panics on a zero divisor and on [i64::MIN % -1]. *)
Definition i64_rem {E} (a b : Z) : outcome E Z :=
  if b =? 0 then Panic "attempt to calculate the remainder with a divisor of zero"
  else if (a =? i64_min) && (b =? -1) then Panic "attempt to calculate the remainder with overflow"
  else Ok (Z.rem a b).

(* --------------------------------------------------------------------- *)
(* serde_json::Value                                                     *)
(* --------------------------------------------------------------------- *)

(** serde_json's number: a u64, a negative i64, or a finite f64. *)
Inductive Number :=
| PosInt (u : Z)
| NegInt (i : Z)
| Float (f : f64).

(** A JSON object is a map with unique keys; [get] is the first binding. *)
Inductive Value :=
| JNull
| JBool (b : bool)
| JNumber (n : Number)
| JString (s : string)
| JArray (a : list Value)
| JObject (o : list (string * Value)).

Fixpoint obj_get (o : list (string * Value)) (k : string) : option Value :=
  match o with
  | [] => None
  | (k', v) :: o' => if String.eqb k k' then Some v else obj_get o' k
  end.

Definition obj_contains_key (o : list (string * Value)) (k : string) : bool :=
  match obj_get o k with Some _ => true | None => false end.

Definition as_str (v : Value) : option string :=
  match v with JString s => Some s | _ => None end.

Definition as_f64 (v : Value) : option f64 :=
  match v with
  | JNumber (PosInt u) => Some (int_to_f64 u)
  | JNumber (NegInt i) => Some (int_to_f64 i)
  | JNumber (Float f) => Some f
  | _ => None
  end.

Definition as_i64 (v : Value) : option Z :=
  match v with
  | JNumber (PosInt u) => if u <=? i64_max then Some u else None
  | JNumber (NegInt i) => Some i
  | _ => None
  end.

Definition is_boolean (v : Value) : bool :=
  match v with JBool _ => true | _ => false end.

Definition as_array (v : Value) : option (list Value) :=
  match v with JArray a => Some a | _ => None end.

Definition as_object (v : Value) : option (list (string * Value)) :=
  match v with JObject o => Some o | _ => None end.

(* --------------------------------------------------------------------- *)
(* The two calls of the [regex] crate the validator makes.               *)
(* --------------------------------------------------------------------- *)

(** [Regex::new] (an error is [None]) and [Regex::is_match], an
    unanchored search. *)
Class RegexLib := {
  Regex : Type;
  regex_new : string -> option Regex;
  is_match : Regex -> string -> bool
}.

(** A regex engine for a fragment of the crate's syntax (literals, [.],
    postfix [*] and backslash escapes), by Brzozowski derivatives. A
    dangling [*] is refused as [Regex::new] refuses it; the other
    metacharacters lie outside the fragment and are refused too. It gives
    the validator a concrete regex library to run on. *)
Module FragmentRegex.

Inductive re :=
| RNone
| REps
| RChr (c : ascii)
| RDot
| RAll
| RCat (r1 r2 : re)
| RAlt (r1 r2 : re)
| RStar (r : re).

Fixpoint nullable (r : re) : bool :=
  match r with
  | RNone | RChr _ | RDot | RAll => false
  | REps | RStar _ => true
  | RCat r1 r2 => nullable r1 && nullable r2
  | RAlt r1 r2 => nullable r1 || nullable r2
  end.

Definition newline : ascii := Ascii.ascii_of_nat 10.

Fixpoint deriv (c : ascii) (r : re) : re :=
  match r with
  | RNone | REps => RNone
  | RChr d => if Ascii.eqb c d then REps else RNone
  | RDot => if Ascii.eqb c newline then RNone else REps
  | RAll => REps
  | RCat r1 r2 =>
      if nullable r1 then RAlt (RCat (deriv c r1) r2) (deriv c r2)
      else RCat (deriv c r1) r2
  | RAlt r1 r2 => RAlt (deriv c r1) (deriv c r2)
  | RStar r1 => RCat (deriv c r1) (RStar r1)
  end.

Fixpoint matches (r : re) (s : string) : bool :=
  match s with
  | EmptyString => nullable r
  | String c s' => matches (deriv c r) s'
  end.

Definition metachars : string := "*+?()[]{}|^$".

Definition atom_of (c : ascii) : option re :=
  if Ascii.eqb c "." then Some RDot
  else if List.existsb (Ascii.eqb c) (list_ascii_of_string metachars) then None
  else Some (RChr c).

(** Left to right; an atom followed by [*] is starred. *)
Fixpoint parse (cs : list ascii) (acc : re) : option re :=
  match cs with
  | [] => Some acc
  | c :: rest =>
      if Ascii.eqb c "\" then
        match rest with
        | [] => None
        | d :: rest2 =>
            match rest2 with
            | s :: rest3 => if Ascii.eqb s "*" then parse rest3 (RCat acc (RStar (RChr d)))
                            else parse rest2 (RCat acc (RChr d))
            | [] => Some (RCat acc (RChr d))
            end
        end
      else
        match atom_of c with
        | None => None
        | Some a =>
            match rest with
            | s :: rest2 => if Ascii.eqb s "*" then parse rest2 (RCat acc (RStar a))
                            else parse rest (RCat acc a)
            | [] => Some (RCat acc a)
            end
        end
  end.

Definition compile (p : string) : option re := parse (list_ascii_of_string p) REps.

(** Unanchored search: some substring matches. *)
Definition search (r : re) (s : string) : bool :=
  matches (RCat (RStar RAll) (RCat r (RStar RAll))) s.

#[export] Instance lib : RegexLib := {| Regex := re; regex_new := compile; is_match := search |}.

End FragmentRegex.

Module JsonSchemaValidation.

Inductive SchemaType := TString | TNumber | TInteger | TBoolean | TArray | TObject.

(** [properties] is a [HashMap<String, Box<SchemaValidator>>]; it is an
    association list here, in the map's iteration order. *)
Inductive SchemaValidator := mkSV {
  schema_type : SchemaType;
  min_length : option nat;
  max_length : option nat;
  pattern : option string;
  minimum : option f64;
  maximum : option f64;
  exclusive_minimum : option f64;
  exclusive_maximum : option f64;
  multiple_of : option f64;
  required : list string;
  properties : list (string * SchemaValidator);
  items : option SchemaValidator
}.

(** The errors raised by [bail!] and [.context(..)], with the arguments
    of their format strings. *)
Inductive SchemaError :=
| ExpectedString
| StringLengthLessThanMinimum (len min : nat)
| StringLengthGreaterThanMaximum (len max : nat)
| InvalidRegexPattern
| StringDoesNotMatchPattern (pattern : string)
| ExpectedNumber
| NumberLessThanMinimum (n min : f64)
| NumberGreaterThanMaximum (n max : f64)
| NumberLeExclusiveMinimum (n emin : f64)
| NumberGeExclusiveMaximum (n emax : f64)
| NumberNotMultipleOf (n m : f64)
| ExpectedInteger
| IntegerLessThanMinimum (n : Z) (min : f64)
| IntegerGreaterThanMaximum (n : Z) (max : f64)
| IntegerLeExclusiveMinimum (n : Z) (emin : f64)
| IntegerGeExclusiveMaximum (n : Z) (emax : f64)
| IntegerNotMultipleOf (n : Z) (m : f64)
| ExpectedBoolean
| ExpectedArray
| ArrayLengthLessThanMinimum (len min : nat)
| ArrayLengthGreaterThanMaximum (len max : nat)
| ErrorInArrayItem (index : nat) (inner : SchemaError)
| ExpectedObject
| MissingRequiredProperty (name : string)
| ErrorInProperty (name : string) (inner : SchemaError).

Abbreviation Res := (outcome SchemaError unit).

(** [SchemaValidator::new] *)
Definition new (t : SchemaType) : SchemaValidator :=
  mkSV t None None None None None None None None [] [] None.

Definition set_min_length (n : nat) (sv : SchemaValidator) : SchemaValidator :=
  match sv with mkSV t _ mx p mn mM emn emx mo r ps it =>
    mkSV t (Some n) mx p mn mM emn emx mo r ps it end.
Definition set_max_length (n : nat) (sv : SchemaValidator) : SchemaValidator :=
  match sv with mkSV t mn' _ p mn mM emn emx mo r ps it =>
    mkSV t mn' (Some n) p mn mM emn emx mo r ps it end.
Definition set_pattern (pat : string) (sv : SchemaValidator) : SchemaValidator :=
  match sv with mkSV t ml mx _ mn mM emn emx mo r ps it =>
    mkSV t ml mx (Some pat) mn mM emn emx mo r ps it end.
Definition set_minimum (x : f64) (sv : SchemaValidator) : SchemaValidator :=
  match sv with mkSV t ml mx p _ mM emn emx mo r ps it =>
    mkSV t ml mx p (Some x) mM emn emx mo r ps it end.
Definition set_exclusive_minimum (x : f64) (sv : SchemaValidator) : SchemaValidator :=
  match sv with mkSV t ml mx p mn mM _ emx mo r ps it =>
    mkSV t ml mx p mn mM (Some x) emx mo r ps it end.
Definition set_exclusive_maximum (x : f64) (sv : SchemaValidator) : SchemaValidator :=
  match sv with mkSV t ml mx p mn mM emn _ mo r ps it =>
    mkSV t ml mx p mn mM emn (Some x) mo r ps it end.
Definition set_multiple_of (x : f64) (sv : SchemaValidator) : SchemaValidator :=
  match sv with mkSV t ml mx p mn mM emn emx _ r ps it =>
    mkSV t ml mx p mn mM emn emx (Some x) r ps it end.
Definition add_required (name : string) (sv : SchemaValidator) : SchemaValidator :=
  match sv with mkSV t ml mx p mn mM emn emx mo r ps it =>
    mkSV t ml mx p mn mM emn emx mo (r ++ [name]) ps it end.
Definition set_schema_type (t : SchemaType) (sv : SchemaValidator) : SchemaValidator :=
  match sv with mkSV _ ml mx p mn mM emn emx mo r ps it =>
    mkSV t ml mx p mn mM emn emx mo r ps it end.
Definition set_maximum (x : f64) (sv : SchemaValidator) : SchemaValidator :=
  match sv with mkSV t ml mx p mn _ emn emx mo r ps it =>
    mkSV t ml mx p mn (Some x) emn emx mo r ps it end.

(** [HashMap::insert] on the association list of a map: a key already
    present keeps its place and gets the new value; a new key is added
    (at the end here, the map's iteration order being unspecified). *)
Fixpoint map_insert {V} (m : list (string * V)) (k : string) (v : V) : list (string * V) :=
  match m with
  | [] => [(k, v)]
  | (k', v') :: m' => if String.eqb k k' then (k', v) :: m' else (k', v') :: map_insert m' k v
  end.

Definition add_property (key : string) (value : SchemaValidator) (sv : SchemaValidator) : SchemaValidator :=
  match sv with mkSV t ml mx p mn mM emn emx mo r ps it =>
    mkSV t ml mx p mn mM emn emx mo r (map_insert ps key value) it end.
Definition set_items (items : SchemaValidator) (sv : SchemaValidator) : SchemaValidator :=
  match sv with mkSV t ml mx p mn mM emn emx mo r ps _ =>
    mkSV t ml mx p mn mM emn emx mo r ps (Some items) end.

(** [derive(PartialEq)] on [SchemaType] *)
Definition schema_type_eqb (a b : SchemaType) : bool :=
  match a, b with
  | TString, TString | TNumber, TNumber | TInteger, TInteger
  | TBoolean, TBoolean | TArray, TArray | TObject, TObject => true
  | _, _ => false
  end.

(** [==] on [Option<T>] from [==] on [T]. *)
Definition option_eqb {A} (eqb : A -> A -> bool) (a b : option A) : bool :=
  match a, b with
  | Some x, Some y => eqb x y
  | None, None => true
  | _, _ => false
  end.

(** [==] on [Vec<T>] from [==] on [T]. *)
Fixpoint vec_eqb {A} (eqb : A -> A -> bool) (a b : list A) : bool :=
  match a, b with
  | [], [] => true
  | x :: a', y :: b' => eqb x y && vec_eqb eqb a' b'
  | _, _ => false
  end.

(** [HashMap::get] on the association list of a map. *)
Fixpoint map_get {V} (m : list (string * V)) (k : string) : option V :=
  match m with
  | [] => None
  | (k', v) :: m' => if String.eqb k k' then Some v else map_get m' k
  end.

(** [impl PartialEq for SchemaValidator]: field by field, leaving out
    [exclusive_minimum], [exclusive_maximum] and [multiple_of]. The
    [properties] maps are equal when they have the same length and every
    entry of the first has an equal value under its key in the second
    (as [HashMap]'s [==]). *)
Fixpoint eq (a b : SchemaValidator) {struct a} : bool :=
  match a, b with
  | mkSV t1 ml1 mx1 p1 mn1 mM1 _ _ _ r1 ps1 it1, mkSV t2 ml2 mx2 p2 mn2 mM2 _ _ _ r2 ps2 it2 =>
      schema_type_eqb t1 t2
      && option_eqb Nat.eqb ml1 ml2
      && option_eqb Nat.eqb mx1 mx2
      && option_eqb String.eqb p1 p2
      && option_eqb f64_eqb mn1 mn2
      && option_eqb f64_eqb mM1 mM2
      && vec_eqb String.eqb r1 r2
      && ((length ps1 =? length ps2)%nat
          && forallb (fun kv => match map_get ps2 kv.1 with Some v2 => eq kv.2 v2 | None => false end) ps1)
      && match it1, it2 with
         | Some x, Some y => eq x y
         | None, None => true
         | _, _ => false
         end
  end.




(** Induction over validators, through [properties] and [items]. *)
Definition SchemaValidator_ind' (P : SchemaValidator -> Prop)
  (H : forall t ml mx p mn mM emn emx mo r ps it,
       Forall (fun kv => P kv.2) ps ->
       (match it with Some x => P x | None => True end) ->
       P (mkSV t ml mx p mn mM emn emx mo r ps it)) :
  forall a, P a :=
  fix F (a : SchemaValidator) : P a :=
    match a with
    | mkSV t ml mx p mn mM emn emx mo r ps it =>
        H t ml mx p mn mM emn emx mo r ps it
          ((fix go (l : list (string * SchemaValidator)) : Forall (fun kv => P kv.2) l :=
              match l with
              | [] => List.Forall_nil _
              | (k, v) :: l' => @List.Forall_cons _ (fun kv => P kv.2) (k, v) l' (F v) (go l')
              end) ps)
          (match it as o return (match o with Some x => P x | None => True end) with
           | Some x => F x
           | None => I
           end)
    end.

Section Validate.
Context `{RegexLib}.

(** [validate_string] *)
Definition validate_string (sv : SchemaValidator) (value : Value) : Res :=
  s ← ok_or ExpectedString (as_str value);
  match min_length sv with
  | Some m => bail_if (String.length s <=? m)%nat (StringLengthLessThanMinimum (String.length s) m)
  | None => Ok ()
  end ;;
  match max_length sv with
  | Some m => bail_if (m <=? String.length s)%nat (StringLengthGreaterThanMaximum (String.length s) m)
  | None => Ok ()
  end ;;
  match pattern sv with
  | Some p =>
      regex_pattern ← ok_or InvalidRegexPattern (regex_new p);
      bail_if (negb (is_match regex_pattern p)) (StringDoesNotMatchPattern p)
  | None => Ok ()
  end ;;
  Ok ().

(** [validate_number] *)
Definition validate_number (sv : SchemaValidator) (value : Value) : Res :=
  n ← ok_or ExpectedNumber (as_f64 value);
  match minimum sv with
  | Some m => bail_if (f64_le n m) (NumberLessThanMinimum n m)
  | None => Ok ()
  end ;;
  match maximum sv with
  | Some m => bail_if (f64_le m n) (NumberGreaterThanMaximum n m)
  | None => Ok ()
  end ;;
  match exclusive_minimum sv with
  | Some m => bail_if (f64_lt n m) (NumberLeExclusiveMinimum n m)
  | None => Ok ()
  end ;;
  match exclusive_maximum sv with
  | Some m => bail_if (f64_lt m n) (NumberGeExclusiveMaximum n m)
  | None => Ok ()
  end ;;
  match multiple_of sv with
  | Some m => bail_if (negb (f64_eqb (f64_rem n m) (F64Fin 0))) (NumberNotMultipleOf n m)
  | None => Ok ()
  end ;;
  Ok ().

(** [validate_integer] *)
Definition validate_integer (sv : SchemaValidator) (value : Value) : Res :=
  n ← ok_or ExpectedInteger (as_i64 value);
  match minimum sv with
  | Some m => bail_if (n <=? f64_as_i64 m) (IntegerLessThanMinimum n m)
  | None => Ok ()
  end ;;
  match maximum sv with
  | Some m => bail_if (f64_as_i64 m <=? n) (IntegerGreaterThanMaximum n m)
  | None => Ok ()
  end ;;
  match exclusive_minimum sv with
  | Some m => bail_if (n <? f64_as_i64 m) (IntegerLeExclusiveMinimum n m)
  | None => Ok ()
  end ;;
  match exclusive_maximum sv with
  | Some m => bail_if (f64_as_i64 m <? n) (IntegerGeExclusiveMaximum n m)
  | None => Ok ()
  end ;;
  match multiple_of sv with
  | Some m => r ← i64_rem n (f64_as_i64 m); bail_if (negb (r =? 0)) (IntegerNotMultipleOf n m)
  | None => Ok ()
  end ;;
  Ok ().

(** [validate_boolean] *)
Definition validate_boolean (value : Value) : Res :=
  bail_if (negb (is_boolean value)) ExpectedBoolean ;; Ok ().

(** The item loop of [validate_array]: [for (index, item) in arr.iter().enumerate()]. *)
Fixpoint validate_items (item_validator : Value -> Res) (index : nat) (arr : list Value) : Res :=
  match arr with
  | [] => Ok ()
  | item :: rest =>
      with_context (ErrorInArrayItem index) (item_validator item) ;;
      validate_items item_validator (S index) rest
  end.

(** [validate_array]; [items] is the item validator's [validate]. *)
Definition validate_array (sv : SchemaValidator) (items : option (Value -> Res)) (value : Value) : Res :=
  arr ← ok_or ExpectedArray (as_array value);
  match min_length sv with
  | Some m => bail_if (length arr <? m)%nat (ArrayLengthLessThanMinimum (length arr) m)
  | None => Ok ()
  end ;;
  match max_length sv with
  | Some m => bail_if (m <? length arr)%nat (ArrayLengthGreaterThanMaximum (length arr) m)
  | None => Ok ()
  end ;;
  match items with
  | Some item_validator => validate_items item_validator 0 arr
  | None => Ok ()
  end ;;
  Ok ().

(** The required-property loop of [validate_object]. *)
Fixpoint check_required (obj : list (string * Value)) (req : list string) : Res :=
  match req with
  | [] => Ok ()
  | r :: rest => bail_if (negb (obj_contains_key obj r)) (MissingRequiredProperty r) ;; check_required obj rest
  end.

(** The property loop of [validate_object]. *)
Fixpoint check_properties (obj : list (string * Value)) (props : list (string * (Value -> Res))) : Res :=
  match props with
  | [] => Ok ()
  | (prop_name, prop_validator) :: rest =>
      match obj_get obj prop_name with
      | Some prop_value => with_context (ErrorInProperty prop_name) (prop_validator prop_value)
      | None => Ok ()
      end ;;
      check_properties obj rest
  end.

(** [validate_object]; [props] pairs each property with its validator's [validate]. *)
Definition validate_object (sv : SchemaValidator) (props : list (string * (Value -> Res))) (value : Value) : Res :=
  obj ← ok_or ExpectedObject (as_object value);
  check_required obj (required sv) ;;
  check_properties obj props ;;
  Ok ().

(** [validate]: dispatch on the schema type. *)
Fixpoint validate (sv : SchemaValidator) : Value -> Res :=
  match sv with
  | mkSV t _ _ _ _ _ _ _ _ _ props it =>
      match t with
      | TString => validate_string sv
      | TNumber => validate_number sv
      | TInteger => validate_integer sv
      | TBoolean => validate_boolean
      | TArray => validate_array sv (match it with Some iv => Some (validate iv) | None => None end)
      | TObject =>
          validate_object sv
            ((fix go (ps : list (string * SchemaValidator)) : list (string * (Value -> Res)) :=
                match ps with
                | [] => []
                | (k, c) :: ps' => (k, validate c) :: go ps'
                end) props)
      end
  end.

End Validate.

End JsonSchemaValidation.

(* --------------------------------------------------------------------- *)
(* PresentationDefinition::validate_authorization_response               *)
(* --------------------------------------------------------------------- *)

Module PresentationDefinition.

Section Response.

(** The collaborators of [validate_authorization_response]: the decoded
    presentation, the input descriptors and descriptor-map entries (only
    their ids are read here), [ssi_claims::jwt::decode_unverified], and
    [InputDescriptor::validate_verifiable_presentation] with its error
    type. *)
Context {VerifiablePresentation InputDescriptor DescriptorMap DescriptorError : Type}.
Context (input_descriptor_id : InputDescriptor -> string).
Context (descriptor_map_id : DescriptorMap -> string).
Context (decode_unverified : string -> option VerifiablePresentation).
Context (validate_verifiable_presentation :
           InputDescriptor -> VerifiablePresentation -> DescriptorMap ->
           outcome DescriptorError unit).

Record PresentationSubmission := {
  submission_id : string;
  definition_id : string;
  descriptor_map : list DescriptorMap
}.

Record UnencodedAuthorizationResponse := {
  vp_token : string;
  presentation_submission : PresentationSubmission
}.

Inductive AuthorizationResponse :=
| Jwt (jwt : string)
| Unencoded (response : UnencodedAuthorizationResponse).

(** The [format] map is not read by the validation and is left out. *)
Record PresentationDefinition := {
  id : string;
  input_descriptors : list InputDescriptor;
  name : option string;
  purpose : option string
}.

Inductive ValidationError :=
| NotImplemented
| DecodeFailed
| DefinitionIdMismatch
| InputDescriptorIdNotFound
| InputDescriptorValidationFailed (e : DescriptorError).

(** One call of [validate_verifiable_presentation]: the input descriptor
    and the descriptor-map entry it was given. *)
Definition Call : Type := InputDescriptor * DescriptorMap.

(** The run of the validation: the descriptor-level calls it made, in
    order, and its outcome. *)
Definition Run : Type := list Call * outcome ValidationError unit.

(** [descriptor_map().iter().map(..).collect::<HashMap<_, _>>()]: the
    entries are inserted in list order, so a later entry replaces an
    earlier one with the same id. *)
Definition descriptor_map_index (dms : list DescriptorMap) : gmap string DescriptorMap :=
  foldl (fun m d => <[descriptor_map_id d := d]> m) ∅ dms.

(** The loop over [self.input_descriptors()]. *)
Fixpoint check_input_descriptors (index : gmap string DescriptorMap)
    (vp : VerifiablePresentation) (ids : list InputDescriptor) : Run :=
  match ids with
  | [] => ([], Ok ())
  | input_descriptor :: rest =>
      match index !! input_descriptor_id input_descriptor with
      | None => ([], Err InputDescriptorIdNotFound)
      | Some descriptor =>
          let call := (input_descriptor, descriptor) in
          match validate_verifiable_presentation input_descriptor vp descriptor with
          | Ok _ =>
              let (calls, r) := check_input_descriptors index vp rest in
              (call :: calls, r)
          | Err e => ([call], Err (InputDescriptorValidationFailed e))
          | Panic msg => ([call], Panic msg)
          end
      end
  end.

(** [validate_authorization_response] *)
Definition validate_authorization_response (pd : PresentationDefinition)
    (auth_response : AuthorizationResponse) : Run :=
  match auth_response with
  | Jwt _ => ([], Err NotImplemented)
  | Unencoded response =>
      let submission := presentation_submission response in
      let jwt := vp_token response in
      match decode_unverified jwt with
      | None => ([], Err DecodeFailed)
      | Some vp =>
          if negb (String.eqb (definition_id submission) (id pd)) then ([], Err DefinitionIdMismatch)
          else
            let index := descriptor_map_index (descriptor_map submission) in
            check_input_descriptors index vp (input_descriptors pd)
      end
  end.

(** [PresentationDefinition::new]: one input descriptor, the other fields
    at their defaults. *)
Definition new (pd_id : string) (input_descriptor : InputDescriptor) : PresentationDefinition :=
  {| id := pd_id; input_descriptors := [input_descriptor]; name := None; purpose := None |}.

(** [add_input_descriptors]: [self.input_descriptors.push(..)]. *)
Definition add_input_descriptors (pd : PresentationDefinition) (input_descriptor : InputDescriptor) :
    PresentationDefinition :=
  {| id := id pd; input_descriptors := input_descriptors pd ++ [input_descriptor];
     name := name pd; purpose := purpose pd |}.

End Response.

End PresentationDefinition.

(* --------------------------------------------------------------------- *)
(* The conditions the validator checks, stated as propositions, and the  *)
(* concrete inputs the theorems are run on.                              *)
(* --------------------------------------------------------------------- *)

Module Conditions.
Import JsonSchemaValidation.

Section WithRegex.
Context `{RegexLib}.

(** The length bounds of a String schema, strict. *)
Definition string_min_ok (sv : SchemaValidator) (s : string) : Prop :=
  match min_length sv with Some m => (m < String.length s)%nat | None => True end.
Definition string_max_ok (sv : SchemaValidator) (s : string) : Prop :=
  match max_length sv with Some m => (String.length s < m)%nat | None => True end.

(** The pattern check of the code: the pattern compiles and the compiled
    regex matches the pattern text. *)
Definition pattern_check_ok (sv : SchemaValidator) : Prop :=
  match pattern sv with
  | Some p => exists r, regex_new p = Some r /\ is_match r p = true
  | None => True
  end.

End WithRegex.

(** The length bounds of an Array schema, inclusive. *)
Definition array_min_ok (sv : SchemaValidator) (a : list Value) : Prop :=
  match min_length sv with Some m => (m <= length a)%nat | None => True end.
Definition array_max_ok (sv : SchemaValidator) (a : list Value) : Prop :=
  match max_length sv with Some m => (length a <= m)%nat | None => True end.

(** A bound that is unset or finite. *)
Definition finite_bound (o : option f64) : Prop :=
  match o with Some (F64Fin _) | None => True | Some _ => False end.

Definition finite_bounds (sv : SchemaValidator) : Prop :=
  finite_bound (minimum sv) /\ finite_bound (maximum sv) /\
  finite_bound (exclusive_minimum sv) /\ finite_bound (exclusive_maximum sv) /\
  finite_bound (multiple_of sv).

(** The conditions of a Number schema on a finite value [q], over the
    rationals: [minimum] and [maximum] strict, the exclusive bounds not,
    and [q] an integer multiple of a non-zero [multipleOf]. *)
Definition number_bounds_ok (sv : SchemaValidator) (q : Q) : Prop :=
  match minimum sv with Some (F64Fin m) => (m < q)%Q | _ => True end /\
  match maximum sv with Some (F64Fin m) => (q < m)%Q | _ => True end /\
  match exclusive_minimum sv with Some (F64Fin m) => (m <= q)%Q | _ => True end /\
  match exclusive_maximum sv with Some (F64Fin m) => (q <= m)%Q | _ => True end /\
  match multiple_of sv with
  | Some (F64Fin m) => ~ (m == 0)%Q /\ exists k : Z, (q == inject_Z k * m)%Q
  | _ => True
  end.

(** The bounds of an Integer schema on [n], compared with the bounds cast
    to i64: [minimum] and [maximum] strict, the exclusive bounds not. *)
Definition integer_range_ok (sv : SchemaValidator) (n : Z) : Prop :=
  match minimum sv with Some m => f64_as_i64 m < n | None => True end /\
  match maximum sv with Some m => n < f64_as_i64 m | None => True end /\
  match exclusive_minimum sv with Some m => f64_as_i64 m <= n | None => True end /\
  match exclusive_maximum sv with Some m => n <= f64_as_i64 m | None => True end.

(** [n % d] panics on i64. *)
Definition i64_rem_panics (n d : Z) : Prop := d = 0 \/ (n = i64_min /\ d = -1).

(** Some validator of the tree is an Integer schema with [multiple_of] set. *)
Fixpoint integer_multiple_of_set (sv : SchemaValidator) : bool :=
  match sv with
  | mkSV t _ _ _ _ _ _ _ mo _ ps it =>
      match t, mo with TInteger, Some _ => true | _, _ => false end
      || existsb (fun kc => integer_multiple_of_set kc.2) ps
      || match it with Some x => integer_multiple_of_set x | None => false end
  end.

(** No key of [extra] is the name of a declared property. *)
Definition undeclared_keys (sv : SchemaValidator) (extra : list (string * Value)) : Prop :=
  Forall (fun kv => Forall (fun kc => kc.1 <> kv.1) (properties sv)) extra.

End Conditions.

Module Fixtures.
Import PresentationDefinition JsonSchemaValidation.

(** The filter of the end-to-end test: [{"type": "string", "pattern": "did:key:.*"}]. *)
Definition did_key_filter : SchemaValidator := set_pattern "did:key:.*" (new TString).

(** An Integer schema whose [multipleOf] is 0.5. *)
Definition integer_multiple_of_half : SchemaValidator :=
  set_multiple_of (F64Fin (1 # 2)) (new TInteger).

Definition number_exclusive_minimum_one : SchemaValidator :=
  set_exclusive_minimum (F64Fin 1) (new TNumber).
Definition number_exclusive_maximum_one : SchemaValidator :=
  set_exclusive_maximum (F64Fin 1) (new TNumber).
Definition integer_exclusive_minimum_one : SchemaValidator :=
  set_exclusive_minimum (F64Fin 1) (new TInteger).
Definition integer_exclusive_maximum_one : SchemaValidator :=
  set_exclusive_maximum (F64Fin 1) (new TInteger).

Definition one : Value := JNumber (PosInt 1).

(** A Number schema whose [minimum] is NaN ([set_minimum(f64::NAN)]). *)
Definition nan_minimum : SchemaValidator := set_minimum F64NaN (new TNumber).

(** A collaborator for the submission check: an input descriptor is its
    id, a descriptor-map entry is an id with a tag, the token always
    decodes, and the descriptor-level check rejects the entries tagged 0. *)
Definition test_decode (jwt : string) : option unit := Some tt.
Definition test_validate_vp (i : string) (vp : unit) (d : string * nat) : outcome string unit :=
  if (d.2 =? 0)%nat then Err "constraint not satisfied" else Ok ().

Definition test_run (pd : PresentationDefinition.PresentationDefinition (InputDescriptor := string))
    (r : AuthorizationResponse (DescriptorMap := string * nat)) :=
  validate_authorization_response (fun i : string => i) (fun d : string * nat => d.1)
    test_decode test_validate_vp pd r.

Definition test_definition (ids : list string) : PresentationDefinition.PresentationDefinition :=
  {| id := "did-key-id-proof"; input_descriptors := ids; name := None; purpose := None |}.

Definition test_unencoded (definition : string) (dms : list (string * nat)) : UnencodedAuthorizationResponse :=
  {| vp_token := "token";
     presentation_submission :=
       {| submission_id := "submission"; definition_id := definition; descriptor_map := dms |} |}.

Definition test_response (definition : string) (dms : list (string * nat)) : AuthorizationResponse :=
  Unencoded (test_unencoded definition dms).

Definition string_min_three : SchemaValidator := set_min_length 3 (new TString).
Definition array_max_two : SchemaValidator := set_max_length 2 (new TArray).
Definition required_a : SchemaValidator := add_required "a" (new TObject).

(** [minimum] 1, [exclusiveMaximum] 10, [multipleOf] 0.5. *)
Definition number_one_to_ten_halves : SchemaValidator :=
  set_multiple_of (F64Fin (1 # 2)) (set_exclusive_maximum (F64Fin 10) (set_minimum (F64Fin 1) (new TNumber))).
Definition integer_maximum_five_halves : SchemaValidator := set_maximum (F64Fin (5 # 2)) (new TInteger).
Definition integer_multiple_of_minus_one : SchemaValidator := set_multiple_of (F64Fin (-1)) (new TInteger).
Definition object_number_halves : SchemaValidator :=
  add_property "n" (set_multiple_of (F64Fin (1 # 2)) (new TNumber)) (new TObject).
Definition array_of_strings : SchemaValidator := set_items (new TString) (new TArray).
Definition object_a_string_b_required : SchemaValidator :=
  add_property "a" (new TString) (add_required "b" (new TObject)).
Definition required_a_b_c : SchemaValidator :=
  add_required "c" (add_required "b" (add_required "a" (new TObject))).
Definition object_a_string : SchemaValidator := add_property "a" (new TString) (new TObject).

End Fixtures.

(* ===================================================================== *)
(* Theorems                                                              *)
(* ===================================================================== *)

Lemma bind_Ok {E A B} (m : outcome E A) (k : A -> outcome E B) (b : B) :
  (m ≫= k) = Ok b <-> exists a, m = Ok a /\ k a = Ok b.
Proof.
  destruct m as [a|e|msg]; cbn; split.
  - eauto.
  - intros (a' & Ha & Hk). congruence.
  - discriminate.
  - intros (a' & Ha & _). discriminate.
  - discriminate.
  - intros (a' & Ha & _). discriminate.
Qed.

Lemma bail_if_Ok {E} (c : bool) (e : E) : bail_if c e = Ok () <-> c = false.
Proof. destruct c; cbn; split; congruence. Qed.

Lemma ok_or_Ok {E A} (e : E) (o : option A) (a : A) : ok_or e o = Ok a <-> o = Some a.
Proof. destruct o; cbn; split; congruence. Qed.

Module SchemaFacts.
Import JsonSchemaValidation Conditions Fixtures.

Section WithRegex.
Context `{RegexLib}.

Lemma with_context_Ok {E A} (f : E -> E) (m : outcome E A) (a : A) :
  with_context f m = Ok a <-> m = Ok a.
Proof. destruct m; cbn; split; congruence. Qed.

Lemma validate_items_Ok (f : Value -> Res) (i : nat) (arr : list Value) :
  validate_items f i arr = Ok () <-> Forall (fun x => f x = Ok ()) arr.
Proof.
  revert i. induction arr as [|x arr IH]; intros i; cbn.
  - split; [constructor|done].
  - rewrite bind_Ok, Forall_cons, <- (IH (S i)). split.
    + intros ([] & Hx & Hrest). apply with_context_Ok in Hx. done.
    + intros [Hx Hrest]. exists (). split; [by apply with_context_Ok|done].
Qed.

Lemma check_required_Ok (obj : list (string * Value)) (req : list string) :
  check_required obj req = Ok () <-> Forall (fun r => obj_contains_key obj r = true) req.
Proof.
  induction req as [|r req IH]; cbn.
  - split; [constructor|done].
  - rewrite bind_Ok, Forall_cons, <- IH. split.
    + intros ([] & Hr & Hrest). apply bail_if_Ok, negb_false_iff in Hr. done.
    + intros [Hr Hrest]. exists (). split; [|done]. apply bail_if_Ok, negb_false_iff. done.
Qed.

Lemma check_properties_Ok (obj : list (string * Value)) (props : list (string * SchemaValidator)) :
  check_properties obj (map (fun kc => (kc.1, validate kc.2)) props) = Ok () <->
  Forall (fun kc => forall v, obj_get obj kc.1 = Some v -> validate kc.2 v = Ok ()) props.
Proof.
  induction props as [|[k c] props IH]; cbn.
  - split; [constructor|done].
  - rewrite bind_Ok, Forall_cons, <- IH. split.
    + intros ([] & Hk & Hrest). split; [|done].
      intros v Hv. cbn in Hv. rewrite Hv in Hk. by apply with_context_Ok in Hk.
    + intros [Hk Hrest]. exists (). split; [|done].
      cbn in Hk. destruct (obj_get obj k) as [v|]; [|done].
      apply with_context_Ok. by apply Hk.
Qed.

(** [validate] on an Object schema, with its property loop as a [map]. *)
Lemma validate_object_unfold ml mx p mn mM emn emx mo r ps it :
  validate (mkSV TObject ml mx p mn mM emn emx mo r ps it) =
  validate_object (mkSV TObject ml mx p mn mM emn emx mo r ps it)
    (map (fun kc => (kc.1, validate kc.2)) ps).
Proof.
  cbn. f_equal. induction ps as [|[k c] ps IH]; cbn; [done|]. by rewrite IH.
Qed.

Lemma validate_object_Ok (sv : SchemaValidator) (o : list (string * Value)) :
  schema_type sv = TObject ->
  validate sv (JObject o) = Ok () <->
  Forall (fun r => obj_contains_key o r = true) (required sv) /\
  Forall (fun kc => forall v, obj_get o kc.1 = Some v -> validate kc.2 v = Ok ()) (properties sv).
Proof.
  destruct sv as [t ml mx p mn mM emn emx mo r ps it]; intros Hty; cbn in Hty; subst t.
  rewrite validate_object_unfold. unfold validate_object; cbn.
  rewrite <- check_required_Ok, <- check_properties_Ok.
  rewrite bind_Ok. split.
  - intros ([] & Hr & Hp). apply bind_Ok in Hp as ([] & Hp & _). done.
  - intros [Hr Hp]. exists (). split; [done|]. apply bind_Ok. by exists ().
Qed.

(** A String schema accepts a string exactly when its length bounds hold
    (both strict) and the pattern check of the code passes. *)
Lemma validate_string_Ok (sv : SchemaValidator) (s : string) :
  schema_type sv = TString ->
  validate sv (JString s) = Ok () <->
  string_min_ok sv s /\ string_max_ok sv s /\ pattern_check_ok sv.
Proof.
  destruct sv as [t ml mx p mn mM emn emx mo r ps it]; cbn; intros ->.
  unfold validate_string, string_min_ok, string_max_ok, pattern_check_ok; cbn.
  split.
  - intros Hv.
    apply bind_Ok in Hv as ([] & Hmin & Hv).
    apply bind_Ok in Hv as ([] & Hmax & Hv).
    apply bind_Ok in Hv as ([] & Hpat & _).
    repeat split.
    + destruct ml as [m|]; [|done]. apply bail_if_Ok, Nat.leb_gt in Hmin. lia.
    + destruct mx as [m|]; [|done]. apply bail_if_Ok, Nat.leb_gt in Hmax. lia.
    + destruct p as [p|]; [|done].
      apply bind_Ok in Hpat as (re & Hre & Hm). apply ok_or_Ok in Hre.
      apply bail_if_Ok, negb_false_iff in Hm. eauto.
  - intros (Hmin & Hmax & Hpat).
    apply bind_Ok. exists (). split.
    { destruct ml as [m|]; [|done]. apply bail_if_Ok, Nat.leb_gt. lia. }
    apply bind_Ok. exists (). split.
    { destruct mx as [m|]; [|done]. apply bail_if_Ok, Nat.leb_gt. lia. }
    apply bind_Ok. exists (). split; [|done].
    destruct p as [p|]; [|done]. destruct Hpat as (re & Hre & Hm).
    apply bind_Ok. exists re. split; [by apply ok_or_Ok|]. apply bail_if_Ok. by rewrite Hm.
Qed.

(** When a String schema sets a pattern and no length bounds, its
    outcome on a string does not depend on the string at all: the
    compiled pattern is matched against the pattern text. *)
Lemma validate_string_pattern_ignores_value (sv : SchemaValidator) (p s : string) :
  schema_type sv = TString -> min_length sv = None -> max_length sv = None ->
  pattern sv = Some p ->
  validate sv (JString s) =
    match regex_new p with
    | None => Err InvalidRegexPattern
    | Some re => if is_match re p then Ok () else Err (StringDoesNotMatchPattern p)
    end.
Proof.
  destruct sv as [t ml mx p' mn mM emn emx mo r ps it]; cbn.
  intros -> -> -> ->. unfold validate_string; cbn.
  destruct (regex_new p) as [re|]; cbn; [|done].
  by destruct (is_match re p).
Qed.

End WithRegex.

(** C6. For a String schema with [minLength = m], on a string that meets
    the other set constraints (the [maxLength] bound and the pattern
    check), validation succeeds iff the length is strictly greater than
    [m]; with [maxLength = M], iff it is strictly less than [M]. *)
Theorem string_length_bounds_strict `{RegexLib} (sv : SchemaValidator) (s : string) :
  schema_type sv = TString ->
  (forall m, min_length sv = Some m -> string_max_ok sv s -> pattern_check_ok sv ->
     validate sv (JString s) = Ok () <-> (m < String.length s)%nat) /\
  (forall M, max_length sv = Some M -> string_min_ok sv s -> pattern_check_ok sv ->
     validate sv (JString s) = Ok () <-> (String.length s < M)%nat).
Proof.
  intros Hty. split.
  - intros m Hm Hmax Hpat. rewrite validate_string_Ok by done.
    unfold string_min_ok. rewrite Hm. tauto.
  - intros M HM Hmin Hpat. rewrite validate_string_Ok by done.
    unfold string_max_ok. rewrite HM. tauto.
Qed.

(** C7. For an Array schema, on an array whose elements all pass the
    item validator (or with no item validator), validation succeeds iff
    [minLength <= len] and [len <= maxLength] for the bounds that are
    set: both bounds inclusive. *)
Theorem array_length_bounds_inclusive `{RegexLib} (sv : SchemaValidator) (a : list Value) :
  schema_type sv = TArray ->
  match items sv with Some iv => Forall (fun x => validate iv x = Ok ()) a | None => True end ->
  validate sv (JArray a) = Ok () <-> array_min_ok sv a /\ array_max_ok sv a.
Proof.
  destruct sv as [t ml mx p mn mM emn emx mo r ps it]; cbn; intros -> Hitems.
  unfold validate_array, array_min_ok, array_max_ok; cbn.
  assert (Hit : match (match it with Some iv => Some (validate iv) | None => None end) with
                | Some f => validate_items f 0 a
                | None => Ok ()
                end = Ok ()).
  { destruct it as [iv|]; [by apply validate_items_Ok | done]. }
  split.
  - intros Hv.
    apply bind_Ok in Hv as ([] & Hmin & Hv).
    apply bind_Ok in Hv as ([] & Hmax & _).
    split.
    + destruct ml as [m|]; [|done]. apply bail_if_Ok, Nat.ltb_ge in Hmin. lia.
    + destruct mx as [m|]; [|done]. apply bail_if_Ok, Nat.ltb_ge in Hmax. lia.
  - intros [Hmin Hmax].
    apply bind_Ok. exists (). split.
    { destruct ml as [m|]; [|done]. apply bail_if_Ok, Nat.ltb_ge. lia. }
    apply bind_Ok. exists (). split.
    { destruct mx as [m|]; [|done]. apply bail_if_Ok, Nat.ltb_ge. lia. }
    apply bind_Ok. exists (). split; [exact Hit|done].
Qed.

(** C8. An Object schema with [required = ["a"]] rejects [{}] with a
    missing-required-property error and accepts [{"a": 1}] when no child
    validator is declared for "a"; in general it accepts an object iff
    every required name is a key of it and every declared child
    validator accepts the property of that name when it is present. *)
Theorem object_required_and_properties `{RegexLib} :
  (forall sv, schema_type sv = TObject -> required sv = ["a"] ->
     validate sv (JObject []) = Err (MissingRequiredProperty "a") /\
     (Forall (fun kc => kc.1 <> "a") (properties sv) ->
      validate sv (JObject [("a", one)]) = Ok ())) /\
  (forall sv o, schema_type sv = TObject ->
     validate sv (JObject o) = Ok () <->
     Forall (fun r => obj_contains_key o r = true) (required sv) /\
     Forall (fun kc => forall v, obj_get o kc.1 = Some v -> validate kc.2 v = Ok ()) (properties sv)).
Proof.
  split; [|exact validate_object_Ok].
  intros sv Hty Hreq. split.
  - destruct sv as [t ml mx p mn mM emn emx mo r ps it]; cbn in Hty, Hreq; subst.
    rewrite validate_object_unfold. reflexivity.
  - intros Hprops. apply validate_object_Ok; [done|]. rewrite Hreq. split.
    + repeat constructor.
    + eapply Forall_impl; [exact Hprops|]. intros [k c] Hk v Hv.
      simpl fst in Hk, Hv. unfold obj_get in Hv.
      destruct (String.eqb k "a") eqn:E; [|discriminate].
      apply String.eqb_eq in E. done.
Qed.

(** C1 (code_bug). The filter of the end-to-end test, pattern
    [did:key:.*], compiles, the string "not-a-did" does not match it, and
    still the filter accepts that string: [validate_string] runs the
    compiled pattern on the pattern text, not on the value. *)
Theorem did_key_filter_accepts_non_matching_string :
  (exists re, FragmentRegex.compile "did:key:.*" = Some re /\
              FragmentRegex.search re "not-a-did" = false) /\
  @validate FragmentRegex.lib did_key_filter (JString "not-a-did") = Ok ().
Proof.
  split.
  - eexists. split; [reflexivity|]. vm_compute. reflexivity.
  - vm_compute. reflexivity.
Qed.

(** C2 (code_bug). An Integer schema whose [multipleOf] is 0.5 panics on
    the integer 3: [0.5 as i64] is 0 and [3 % 0] panics. *)
Theorem integer_multiple_of_half_panics `{RegexLib} :
  validate integer_multiple_of_half (JNumber (PosInt 3)) =
    Panic "attempt to calculate the remainder with a divisor of zero".
Proof. reflexivity. Qed.

(** C3 (code_bug). The value 1 passes a Number schema and an Integer
    schema whose [exclusiveMinimum] is 1, and one whose
    [exclusiveMaximum] is 1: the checks use [<] and [>], not [<=] and
    [>=]. *)
Theorem exclusive_bounds_accept_the_bound `{RegexLib} :
  validate number_exclusive_minimum_one one = Ok () /\
  validate number_exclusive_maximum_one one = Ok () /\
  validate integer_exclusive_minimum_one one = Ok () /\
  validate integer_exclusive_maximum_one one = Ok ().
Proof. repeat split; reflexivity. Qed.






(** C10 (code bug). [impl Eq for SchemaValidator] promises that [==] is
    reflexive, and the claim says that two validators agreeing on
    [schema_type], [min_length], [max_length], [pattern], [minimum],
    [maximum], [required], [properties] and [items] compare equal. A
    validator whose [minimum] or [maximum] is NaN is not [==] to itself,
    since [f64]'s [==] is false on NaN; so the claim fails, on the Number
    schema with a NaN [minimum] compared with itself. *)
Theorem eq_not_reflexive_with_nan_bound :
  (forall a : SchemaValidator,
     minimum a = Some F64NaN \/ maximum a = Some F64NaN -> eq a a = false) /\
  ~ (forall a b : SchemaValidator,
       schema_type a = schema_type b -> min_length a = min_length b ->
       max_length a = max_length b -> pattern a = pattern b ->
       minimum a = minimum b -> maximum a = maximum b ->
       required a = required b -> properties a = properties b -> items a = items b ->
       eq a b = true).
Proof.
  split.
  - intros [t ml mx p mn mM emn emx mo r ps it]; cbn [minimum maximum].
    intros [->| ->]; cbn [eq]; cbn [option_eqb f64_eqb];
      rewrite ?andb_false_r; cbn; rewrite ?andb_false_r; reflexivity.
  - intros Hall.
    assert (Heq : eq nan_minimum nan_minimum = true) by (apply Hall; reflexivity).
    vm_compute in Heq. discriminate Heq.
Qed.


End SchemaFacts.

Module ExtraSchemaFacts.
Import JsonSchemaValidation Conditions Fixtures SchemaFacts.

Lemma seq_Ok (m : outcome SchemaError unit) (k : Res) :
  (m ≫= fun _ => k) = Ok () <-> m = Ok () /\ k = Ok ().
Proof. destruct m as [[]|e|msg]; cbn; intuition congruence. Qed.

Lemma f64_le_fin_false (a b : Q) : f64_le (F64Fin a) (F64Fin b) = false <-> (b < a)%Q.
Proof.
  cbn. rewrite <- not_true_iff_false, Qle_bool_iff.
  split; [apply Qnot_le_lt|apply Qlt_not_le].
Qed.

Lemma f64_lt_fin_false (a b : Q) : f64_lt (F64Fin a) (F64Fin b) = false <-> (b <= a)%Q.
Proof. cbn. unfold Qltb. rewrite negb_false_iff. apply Qle_bool_iff. Qed.

Lemma Qtrunc_compat (x y : Q) : (x == y)%Q -> Qtrunc x = Qtrunc y.
Proof.
  destruct x as [a b], y as [c d]. unfold Qeq, Qtrunc; cbn. intros Hxy.
  rewrite <- (Z.quot_mul_cancel_r a (Zpos b) (Zpos d)) by lia.
  rewrite Hxy, (Z.mul_comm (Zpos b) (Zpos d)).
  apply Z.quot_mul_cancel_r; lia.
Qed.

Lemma Qtrunc_inject_Z (k : Z) : Qtrunc (inject_Z k) = k.
Proof. unfold Qtrunc; cbn. apply Z.quot_1_r. Qed.

Lemma f64_rem_zero (q m : Q) :
  f64_eqb (f64_rem (F64Fin q) (F64Fin m)) (F64Fin 0) = true <->
  ~ (m == 0)%Q /\ exists k : Z, (q == inject_Z k * m)%Q.
Proof.
  cbn. destruct (Qeq_bool m 0) eqn:Hm.
  - apply Qeq_bool_iff in Hm. split; [discriminate|]. intros [Hne _]. contradiction.
  - assert (Hne : ~ (m == 0)%Q).
    { intros Hm'. apply Qeq_bool_iff in Hm'. congruence. }
    cbn. rewrite Qeq_bool_iff. split.
    + intros Hz. split; [done|]. exists (Qtrunc (q / m)).
      set (t := (inject_Z (Qtrunc (q / m)) * m)%Q) in *. lra.
    + intros [_ [k Hk]].
      assert (Hd : (q / m == inject_Z k)%Q).
      { rewrite Hk. field. exact Hne. }
      rewrite (Qtrunc_compat _ _ Hd), Qtrunc_inject_Z.
      set (t := (inject_Z k * m)%Q) in *. lra.
Qed.

Section WithRegex.
Context `{RegexLib}.

(** On a finite number [q], a Number schema whose bounds are finite accepts
    iff [minimum < q] and [q < maximum] (strict), [exclusiveMinimum <= q]
    and [q <= exclusiveMaximum] (not strict), and [q] is an integer
    multiple of a non-zero [multipleOf]: a zero [multipleOf] rejects every
    number (the remainder is NaN). *)
Theorem number_schema_Ok (sv : SchemaValidator) (v : Value) (q : Q) :
  schema_type sv = TNumber -> finite_bounds sv -> as_f64 v = Some (F64Fin q) ->
  validate sv v = Ok () <-> number_bounds_ok sv q.
Proof.
  destruct sv as [t ml mx p mn mM emn emx mo r ps it]; cbn.
  intros -> (Fmn & FmM & Femn & Femx & Fmo) Hv.
  unfold validate_number, number_bounds_ok; cbn. rewrite Hv; cbn [ok_or mbind outcome_bind].
  rewrite !seq_Ok.
  cbn in Fmn, FmM, Femn, Femx, Fmo.
  destruct mn as [[m1| |]|]; try contradiction;
  destruct mM as [[m2| |]|]; try contradiction;
  destruct emn as [[m3| |]|]; try contradiction;
  destruct emx as [[m4| |]|]; try contradiction;
  destruct mo as [[m5| |]|]; try contradiction;
  rewrite ?bail_if_Ok, ?f64_le_fin_false, ?f64_lt_fin_false, ?negb_false_iff, ?f64_rem_zero;
  intuition.
Qed.

Lemma i64_rem_check_Ok (n d : Z) (e : SchemaError) :
  (r ← i64_rem n d; bail_if (negb (r =? 0)) e) = Ok () <->
  ~ i64_rem_panics n d /\ Z.rem n d = 0.
Proof.
  unfold i64_rem, i64_rem_panics.
  destruct (Z.eqb_spec d 0) as [->|Hd]; cbn; [split; [discriminate|tauto]|].
  destruct (Z.eqb_spec n i64_min) as [->|Hn]; destruct (Z.eqb_spec d (-1)) as [->|Hd1]; cbn;
    try (split; [discriminate|tauto]);
    rewrite bail_if_Ok, negb_false_iff, Z.eqb_eq; intuition.
Qed.

(** On an i64 [n], an Integer schema accepts iff [n] is strictly between
    [minimum] and [maximum] and within the exclusive bounds (inclusive),
    every bound cast to i64 (truncated, saturating), and, when
    [multipleOf] is set, [n % (multipleOf as i64)] does not panic and is 0. *)
Theorem integer_schema_Ok (sv : SchemaValidator) (v : Value) (n : Z) :
  schema_type sv = TInteger -> as_i64 v = Some n ->
  validate sv v = Ok () <->
  integer_range_ok sv n /\
  match multiple_of sv with
  | Some m => ~ i64_rem_panics n (f64_as_i64 m) /\ Z.rem n (f64_as_i64 m) = 0
  | None => True
  end.
Proof.
  destruct sv as [t ml mx p mn mM emn emx mo r ps it]; cbn.
  intros -> Hv.
  unfold validate_integer, integer_range_ok; cbn. rewrite Hv; cbn [ok_or mbind outcome_bind].
  rewrite !seq_Ok.
  destruct mn as [m1|]; destruct mM as [m2|]; destruct emn as [m3|]; destruct emx as [m4|];
  destruct mo as [m5|];
  rewrite ?bail_if_Ok, ?i64_rem_check_Ok, ?Z.leb_gt, ?Z.ltb_ge; intuition.
Qed.

Lemma seq_Panic (m : outcome SchemaError unit) (k : Res) :
  (exists msg, (m ≫= fun _ => k) = Panic msg) <->
  (exists msg, m = Panic msg) \/ (m = Ok () /\ exists msg, k = Panic msg).
Proof.
  destruct m as [[]|e|msg]; cbn; split.
  - intros Hk. by right.
  - intros [(msg & Hm)|(_ & Hk)]; [discriminate|exact Hk].
  - intros (msg & Hm). discriminate.
  - intros [(msg & Hm)|(Hm & _)]; discriminate.
  - intros _. left. by exists msg.
  - intros _. by exists msg.
Qed.

Lemma bail_if_not_Panic (c : bool) (e : SchemaError) :
  (exists msg, bail_if c e = Panic msg) <-> False.
Proof. destruct c; cbn; split; try done; intros (msg & Hm); discriminate. Qed.

Lemma Ok_not_Panic : (exists msg, @Ok SchemaError unit () = Panic msg) <-> False.
Proof. split; [intros (msg & Hm); discriminate|done]. Qed.

Lemma i64_rem_check_Panic (n d : Z) (e : SchemaError) :
  (exists msg, (r ← i64_rem n d; bail_if (negb (r =? 0)) e) = Panic msg) <-> i64_rem_panics n d.
Proof.
  unfold i64_rem, i64_rem_panics.
  destruct (Z.eqb_spec d 0) as [->|Hd]; cbn; [split; [|eauto]; tauto|].
  destruct (Z.eqb_spec n i64_min) as [->|Hn]; destruct (Z.eqb_spec d (-1)) as [->|Hd1]; cbn;
    try (split; [|eauto]; tauto);
    rewrite bail_if_not_Panic; intuition.
Qed.

Lemma ex_Some_iff {A} (x : A) (P : A -> Prop) : (exists y, Some x = Some y /\ P y) <-> P x.
Proof. split; [intros (y & Hy & Py); by injection Hy as ->|eauto]. Qed.

Lemma ex_None_iff {A} (P : A -> Prop) : (exists y, None = Some y /\ P y) <-> False.
Proof. split; [intros (y & Hy & _); discriminate|done]. Qed.

(** An Integer schema panics on an i64 [n] exactly when its bounds pass and
    [multipleOf] is set with [multipleOf as i64] equal to 0, or equal to -1
    with [n = i64::MIN]. *)
Theorem integer_schema_panics (sv : SchemaValidator) (v : Value) (n : Z) :
  schema_type sv = TInteger -> as_i64 v = Some n ->
  (exists msg, validate sv v = Panic msg) <->
  integer_range_ok sv n /\ exists m, multiple_of sv = Some m /\ i64_rem_panics n (f64_as_i64 m).
Proof.
  destruct sv as [t ml mx p mn mM emn emx mo r ps it]; cbn.
  intros -> Hv.
  unfold validate_integer, integer_range_ok; cbn. rewrite Hv; cbn [ok_or mbind outcome_bind].
  rewrite !seq_Panic.
  destruct mn as [m1|]; destruct mM as [m2|]; destruct emn as [m3|]; destruct emx as [m4|];
  destruct mo as [m5|];
  rewrite ?bail_if_not_Panic, ?Ok_not_Panic, ?i64_rem_check_Panic, ?ex_Some_iff, ?ex_None_iff,
    ?bail_if_Ok, ?Z.leb_gt, ?Z.ltb_ge; intuition.
Qed.

Lemma bind_not_Panic {A B} (m : outcome SchemaError A) (k : A -> outcome SchemaError B) (msg : string) :
  (forall msg, m <> Panic msg) -> (forall a msg, k a <> Panic msg) -> (m ≫= k) <> Panic msg.
Proof. intros Hm Hk. destruct m as [a|e|msg']; cbn; [apply Hk|discriminate|by destruct (Hm msg')]. Qed.

Lemma ok_or_not_Panic {A} (e : SchemaError) (o : option A) (msg : string) : ok_or e o <> Panic msg.
Proof. by destruct o. Qed.

Lemma bail_if_ne_Panic (c : bool) (e : SchemaError) (msg : string) : bail_if c e <> Panic msg.
Proof. by destruct c. Qed.

Lemma validate_items_not_Panic (f : Value -> Res) (i : nat) (arr : list Value) (msg : string) :
  (forall x msg, f x <> Panic msg) -> validate_items f i arr <> Panic msg.
Proof.
  intros Hf. revert i msg. induction arr as [|x arr IH]; intros i msg; cbn; [discriminate|].
  apply bind_not_Panic; [|intros; apply IH].
  intros msg'. specialize (Hf x msg'). destruct (f x); cbn; congruence.
Qed.

Lemma check_required_not_Panic (o : list (string * Value)) (req : list string) (msg : string) :
  check_required o req <> Panic msg.
Proof.
  revert msg. induction req as [|q req IH]; intros msg; cbn; [discriminate|].
  apply bind_not_Panic; [intros; apply bail_if_ne_Panic|intros; apply IH].
Qed.

Lemma check_properties_not_Panic (o : list (string * Value)) (ps : list (string * SchemaValidator)) (msg : string) :
  Forall (fun kc => forall v msg, validate kc.2 v <> Panic msg) ps ->
  check_properties o (map (fun kc => (kc.1, validate kc.2)) ps) <> Panic msg.
Proof.
  intros Hps. revert msg. induction Hps as [|[k c] ps Hc Hps IH]; intros msg; cbn; [discriminate|].
  apply bind_not_Panic; [|intros; apply IH].
  intros msg'. destruct (obj_get o k) as [v|]; cbn; [|discriminate].
  specialize (Hc v msg'). cbn in Hc. destruct (validate c v); cbn; congruence.
Qed.

(** Shows that a chain of [bail!], [.context(..)] and [?] does not panic. *)
Ltac not_panic :=
  repeat (cbv beta iota; first
    [ discriminate
    | apply ok_or_not_Panic
    | apply bail_if_ne_Panic
    | apply bind_not_Panic; intros
    | match goal with |- match ?x with _ => _ end <> _ => destruct x end ]).

(** [validate] never panics on a validator tree in which no Integer schema
    sets [multipleOf]. *)
Theorem validate_panics_only_with_integer_multiple_of (sv : SchemaValidator) :
  integer_multiple_of_set sv = false -> forall v msg, validate sv v <> Panic msg.
Proof.
  revert sv.
  apply (SchemaValidator_ind'
           (fun sv => integer_multiple_of_set sv = false -> forall v msg, validate sv v <> Panic msg)).
  intros t ml mx p mn mM emn emx mo r ps it Hps Hit Hset v msg.
  cbn [integer_multiple_of_set] in Hset.
  apply orb_false_iff in Hset as [Hset Hitset]. apply orb_false_iff in Hset as [Htm Hpsset].
  destruct t.
  - cbn [validate]. unfold validate_string. not_panic.
  - cbn [validate]. unfold validate_number. not_panic.
  - destruct mo as [m|]; [discriminate Htm|].
    cbn [validate]. unfold validate_integer. not_panic.
  - cbn [validate]. unfold validate_boolean. not_panic.
  - cbn [validate]. unfold validate_array.
    destruct it as [iv|]; not_panic.
    apply validate_items_not_Panic. by apply Hit.
  - rewrite validate_object_unfold. unfold validate_object. not_panic.
    + apply check_required_not_Panic.
    + apply check_properties_not_Panic.
      apply Forall_forall. intros kc Hin. rewrite Forall_forall in Hps. apply Hps; [done|].
      destruct (integer_multiple_of_set kc.2) eqn:E; [|done].
      exfalso. apply (proj2 (not_true_iff_false _) Hpsset), existsb_exists.
      exists kc. split; [by apply list_elem_of_In|exact E].
Qed.

Lemma validate_items_first_Err (f : Value -> Res) (i : nat) (pre : list Value) (x : Value)
    (post : list Value) (e : SchemaError) :
  Forall (fun y => f y = Ok ()) pre -> f x = Err e ->
  validate_items f i (pre ++ x :: post) = Err (ErrorInArrayItem (i + length pre) e).
Proof.
  revert i. induction pre as [|y pre IH]; intros i Hpre Hx; cbn.
  - rewrite Hx. cbn. by rewrite Nat.add_0_r.
  - apply Forall_cons in Hpre as [Hy Hpre]. rewrite Hy. cbn.
    rewrite IH by done. do 2 f_equal. lia.
Qed.

(** When the length bounds of an Array schema hold and the items before
    position [i] pass the item validator, a failure of the item at [i] is
    reported as that item's error tagged with the index [i]. *)
Theorem array_item_error_index (sv iv : SchemaValidator) (pre : list Value) (x : Value)
    (post : list Value) (e : SchemaError) :
  schema_type sv = TArray -> items sv = Some iv ->
  array_min_ok sv (pre ++ x :: post) -> array_max_ok sv (pre ++ x :: post) ->
  Forall (fun y => validate iv y = Ok ()) pre -> validate iv x = Err e ->
  validate sv (JArray (pre ++ x :: post)) = Err (ErrorInArrayItem (length pre) e).
Proof.
  destruct sv as [t ml mx p mn mM emn emx mo r ps it]; unfold array_min_ok, array_max_ok; cbn.
  intros -> -> Hmin Hmax Hpre Hx.
  unfold validate_array. cbn [as_array ok_or mbind outcome_bind min_length max_length].
  destruct ml as [m1|];
    [unfold bail_if at 1; rewrite (proj2 (Nat.ltb_ge _ _) Hmin)|]; cbn [mbind outcome_bind].
  all: destruct mx as [m2|];
    [unfold bail_if at 1; rewrite (proj2 (Nat.ltb_ge _ _) Hmax)|]; cbn [mbind outcome_bind].
  all: by rewrite (validate_items_first_Err _ 0 pre x post e Hpre Hx).
Qed.


Lemma check_required_Err (o : list (string * Value)) (req : list string) (e : SchemaError) :
  check_required o req = Err e ->
  exists q, In q req /\ obj_contains_key o q = false /\ e = MissingRequiredProperty q.
Proof.
  induction req as [|q req IH]; cbn; [discriminate|].
  destruct (obj_contains_key o q) eqn:Hq; cbn.
  - intros Hrest. destruct (IH Hrest) as (q' & Hin & Hq' & ->). eauto.
  - intros [= <-]. eauto.
Qed.

Lemma check_properties_Err (o : list (string * Value)) (ps : list (string * SchemaValidator)) (e : SchemaError) :
  check_properties o (map (fun kc => (kc.1, validate kc.2)) ps) = Err e ->
  exists k c v e', In (k, c) ps /\ obj_get o k = Some v /\ validate c v = Err e' /\
                   e = ErrorInProperty k e'.
Proof.
  induction ps as [|[k c] ps IH]; cbn; [discriminate|].
  destruct (obj_get o k) as [v|] eqn:Hk; cbn.
  - destruct (validate c v) as [[]|e'|msg] eqn:Hc; cbn.
    + intros Hrest. destruct (IH Hrest) as (k' & c' & v' & e'' & Hin & ?). eauto 10.
    + intros [= <-]. eauto 10.
    + discriminate.
  - intros Hrest. destruct (IH Hrest) as (k' & c' & v' & e'' & Hin & ?). eauto 10.
Qed.

(** Every error of an Object schema on an object is the missing-property
    error of a required name that is not a key, or, every required name
    being a key, the error of a declared property validator on the value
    of its property, tagged with the property name. *)
Theorem object_errors_classified (sv : SchemaValidator) (o : list (string * Value)) (e : SchemaError) :
  schema_type sv = TObject -> validate sv (JObject o) = Err e ->
  (exists q, In q (required sv) /\ obj_contains_key o q = false /\ e = MissingRequiredProperty q) \/
  (Forall (fun q => obj_contains_key o q = true) (required sv) /\
   exists k c v e', In (k, c) (properties sv) /\ obj_get o k = Some v /\ validate c v = Err e' /\
                    e = ErrorInProperty k e').
Proof.
  destruct sv as [t ml mx p mn mM emn emx mo r ps it]; cbn [schema_type required properties]; intros ->.
  rewrite validate_object_unfold. unfold validate_object.
  cbn [as_object ok_or mbind outcome_bind required].
  destruct (check_required o r) as [[]|e'|msg] eqn:Hr; cbn [mbind outcome_bind].
  - destruct (check_properties o (map (fun kc => (kc.1, validate kc.2)) ps)) as [[]|e'|msg] eqn:Hp;
      cbn; [discriminate| |discriminate].
    intros [= <-]. right. split; [by apply check_required_Ok|]. by apply check_properties_Err.
  - intros [= <-]. left. by apply check_required_Err.
  - discriminate.
Qed.

Lemma check_required_first_missing (o : list (string * Value)) (pre : list string) (q : string)
    (post : list string) :
  Forall (fun q' => obj_contains_key o q' = true) pre -> obj_contains_key o q = false ->
  check_required o (pre ++ q :: post) = Err (MissingRequiredProperty q).
Proof.
  induction pre as [|q' pre IH]; cbn; intros Hpre Hq.
  - by rewrite Hq.
  - apply Forall_cons in Hpre as [Hq' Hpre]. rewrite Hq'. cbn. by apply IH.
Qed.

(** The required names are checked in order and before any property
    validator: the first one that is not a key is the error. *)
Theorem first_missing_required_reported (sv : SchemaValidator) (o : list (string * Value))
    (pre : list string) (q : string) (post : list string) :
  schema_type sv = TObject -> required sv = pre ++ q :: post ->
  Forall (fun q' => obj_contains_key o q' = true) pre -> obj_contains_key o q = false ->
  validate sv (JObject o) = Err (MissingRequiredProperty q).
Proof.
  destruct sv as [t ml mx p mn mM emn emx mo r ps it]; cbn [schema_type required].
  intros -> -> Hpre Hq.
  rewrite validate_object_unfold. unfold validate_object. cbn [as_object ok_or mbind outcome_bind required].
  by rewrite check_required_first_missing.
Qed.

Lemma obj_get_app (o e : list (string * Value)) (k : string) :
  obj_get (o ++ e) k = match obj_get o k with Some v => Some v | None => obj_get e k end.
Proof.
  induction o as [|[k' v'] o IH]; cbn; [done|]. by destruct (String.eqb k k').
Qed.

Lemma obj_get_absent (e : list (string * Value)) (k : string) :
  Forall (fun kv => k <> kv.1) e -> obj_get e k = None.
Proof.
  induction 1 as [|[k' v'] e Hk He IH]; cbn; [done|].
  cbn in Hk. destruct (String.eqb_spec k k'); [contradiction|exact IH].
Qed.

(** Keys that are not declared properties are never checked: appending
    them to an accepted object leaves it accepted. *)
Theorem undeclared_keys_ignored (sv : SchemaValidator) (o extra : list (string * Value)) :
  schema_type sv = TObject -> undeclared_keys sv extra ->
  validate sv (JObject o) = Ok () -> validate sv (JObject (o ++ extra)) = Ok ().
Proof.
  intros Hty Hund. rewrite !validate_object_Ok by done. intros [Hr Hp]. split.
  - eapply Forall_impl; [exact Hr|]. intros q. unfold obj_contains_key.
    rewrite obj_get_app. by destruct (obj_get o q).
  - apply Forall_forall. intros kc Hin v. rewrite obj_get_app.
    rewrite Forall_forall in Hp. specialize (Hp kc Hin).
    destruct (obj_get o kc.1) as [v'|] eqn:Hv'.
    + intros [= <-]. by apply Hp.
    + rewrite obj_get_absent; [discriminate|].
      apply Forall_forall. intros kv Hkv.
      unfold undeclared_keys in Hund. rewrite Forall_forall in Hund.
      specialize (Hund kv Hkv). rewrite Forall_forall in Hund.
      specialize (Hund kc Hin). cbn in Hund. congruence.
Qed.

Lemma map_insert_fresh {V} (m : list (string * V)) (k : string) (v : V) :
  map_get m k = None -> map_insert m k v = m ++ [(k, v)].
Proof.
  induction m as [|[k' v'] m IH]; cbn; [done|].
  destruct (String.eqb k k'); [discriminate|]. intros Hm. by rewrite IH.
Qed.

(** [add_property] with a new key adds one check: the object is accepted
    iff the schema accepted it before and the new validator accepts the
    value under the key, when there is one. *)
Theorem add_property_fresh_key (sv c : SchemaValidator) (k : string) (o : list (string * Value)) :
  schema_type sv = TObject -> map_get (properties sv) k = None ->
  validate (add_property k c sv) (JObject o) = Ok () <->
  validate sv (JObject o) = Ok () /\ (forall v, obj_get o k = Some v -> validate c v = Ok ()).
Proof.
  destruct sv as [t ml mx p mn mM emn emx mo r ps it]; cbn [schema_type properties]; intros -> Hk.
  unfold add_property. rewrite !validate_object_Ok by done. cbn [required properties].
  rewrite map_insert_fresh by done. rewrite Forall_app, Forall_singleton. cbn. tauto.
Qed.

(** [add_required] adds one check: the object is accepted iff the schema
    accepted it before and it has the key. *)
Theorem add_required_checks_key (sv : SchemaValidator) (k : string) (o : list (string * Value)) :
  schema_type sv = TObject ->
  validate (add_required k sv) (JObject o) = Ok () <->
  validate sv (JObject o) = Ok () /\ obj_contains_key o k = true.
Proof.
  destruct sv as [t ml mx p mn mM emn emx mo r ps it]; cbn [schema_type]; intros ->.
  unfold add_required. rewrite !validate_object_Ok by done. cbn [required properties].
  rewrite Forall_app, Forall_singleton. tauto.
Qed.

End WithRegex.

End ExtraSchemaFacts.

Module SubmissionFacts.
Import PresentationDefinition.

Section Response.
Context {VerifiablePresentation InputDescriptor DescriptorMap DescriptorError : Type}.
Context (input_descriptor_id : InputDescriptor -> string).
Context (descriptor_map_id : DescriptorMap -> string).
Context (decode_unverified : string -> option VerifiablePresentation).
Context (validate_verifiable_presentation :
           InputDescriptor -> VerifiablePresentation -> DescriptorMap ->
           outcome DescriptorError unit).

Local Abbreviation run := (validate_authorization_response input_descriptor_id descriptor_map_id
                         decode_unverified validate_verifiable_presentation).
Local Abbreviation check := (check_input_descriptors input_descriptor_id validate_verifiable_presentation).
Local Abbreviation index := (descriptor_map_index descriptor_map_id).
Local Abbreviation entries_for k dms := (filter (fun d => descriptor_map_id d = k) dms).

Lemma foldl_insert_lookup (dms : list DescriptorMap) (m : gmap string DescriptorMap) (k : string) :
  foldl (fun m d => <[descriptor_map_id d := d]> m) m dms !! k =
  match last (entries_for k dms) with Some d => Some d | None => m !! k end.
Proof.
  revert m. induction dms as [|d dms IH]; intros m; [done|]. cbn [foldl].
  rewrite IH, filter_cons.
  destruct (last (entries_for k dms)) as [d'|] eqn:Hl.
  - case_decide; rewrite ?last_cons, Hl; done.
  - case_decide as Hk.
    + rewrite last_cons, Hl. rewrite Hk. apply lookup_insert_eq.
    + rewrite Hl. by rewrite lookup_insert_ne.
Qed.

(** The index maps an id to the last entry carrying it. *)
Lemma index_lookup (dms : list DescriptorMap) (k : string) :
  index dms !! k = last (entries_for k dms).
Proof.
  unfold descriptor_map_index. rewrite foldl_insert_lookup.
  destruct (last _); [done|]. apply lookup_empty.
Qed.

Lemma check_calls_from_index (idx : gmap string DescriptorMap) vp ids i d :
  In (i, d) (check idx vp ids).1 -> idx !! input_descriptor_id i = Some d.
Proof.
  induction ids as [|j ids IH]; cbn; [done|].
  destruct (idx !! input_descriptor_id j) as [dj|] eqn:Hj; cbn; [|done].
  destruct (validate_verifiable_presentation j vp dj); cbn.
  - destruct (check idx vp ids) as [calls r] eqn:Hc; cbn.
    intros [Heq|Hin]; [inversion Heq; subst; done|].
    apply IH. exact Hin.
  - intros [Heq|[]]. inversion Heq; subst; done.
  - intros [Heq|[]]. inversion Heq; subst; done.
Qed.

Lemma check_missing_not_Ok (idx : gmap string DescriptorMap) vp ids i :
  In i ids -> idx !! input_descriptor_id i = None -> (check idx vp ids).2 <> Ok ().
Proof.
  induction ids as [|j ids IH]; cbn; [done|].
  intros Hin Hi.
  destruct (idx !! input_descriptor_id j) as [dj|] eqn:Hj; cbn; [|discriminate].
  destruct (validate_verifiable_presentation j vp dj); cbn; [|discriminate|discriminate].
  destruct (check idx vp ids) as [calls r] eqn:Hc; cbn.
  destruct Hin as [->|Hin]; [congruence|].
  exact (IH Hin Hi).
Qed.

Lemma check_first_missing (idx : gmap string DescriptorMap) vp pre i post :
  Forall (fun j => exists d, idx !! input_descriptor_id j = Some d /\
                             validate_verifiable_presentation j vp d = Ok ()) pre ->
  idx !! input_descriptor_id i = None ->
  (check idx vp (pre ++ i :: post)).2 = Err InputDescriptorIdNotFound.
Proof.
  induction pre as [|j pre IH]; cbn; intros Hpre Hi.
  - by rewrite Hi.
  - apply Forall_cons in Hpre as [(d & Hj & Hv) Hpre].
    rewrite Hj, Hv.
    destruct (check idx vp (pre ++ i :: post)) as [calls r] eqn:Hc; cbn.
    exact (IH Hpre Hi).
Qed.

Lemma check_first_failure (idx : gmap string DescriptorMap) vp pre j d rest :
  Forall (fun j' => exists d', idx !! input_descriptor_id j' = Some d' /\
                               validate_verifiable_presentation j' vp d' = Ok ()) pre ->
  idx !! input_descriptor_id j = Some d ->
  validate_verifiable_presentation j vp d <> Ok () ->
  (check idx vp (pre ++ j :: rest)).2 =
    match validate_verifiable_presentation j vp d with
    | Ok _ => Ok ()
    | Err e => Err (InputDescriptorValidationFailed e)
    | Panic msg => Panic msg
    end.
Proof.
  induction pre as [|j' pre IH]; cbn; intros Hpre Hj Hv.
  - rewrite Hj. destruct (validate_verifiable_presentation j vp d) as [[]|e|msg]; cbn; done.
  - apply Forall_cons in Hpre as [(d' & Hj' & Hv') Hpre].
    rewrite Hj', Hv'.
    destruct (check idx vp (pre ++ j :: rest)) as [calls r] eqn:Hc; cbn.
    exact (IH Hpre Hj Hv).
Qed.

Lemma no_entry_index_None (dms : list DescriptorMap) (k : string) :
  Forall (fun d => descriptor_map_id d <> k) dms -> index dms !! k = None.
Proof.
  intros Hall. rewrite index_lookup. apply last_None.
  induction Hall as [|d dms Hd Hall IH]; [done|].
  rewrite filter_cons. case_decide; [done|]. exact IH.
Qed.

(** C4. When the token decodes and the submission's definition id differs
    from the definition's id, the validation fails with the mismatch
    error and calls no descriptor-level validation. *)
Theorem definition_id_mismatch_fails_first (pd : PresentationDefinition.PresentationDefinition)
    (r : UnencodedAuthorizationResponse) (vp : VerifiablePresentation) :
  decode_unverified (vp_token r) = Some vp ->
  definition_id (presentation_submission r) <> id pd ->
  run pd (Unencoded r) = ([], Err DefinitionIdMismatch).
Proof.
  intros Hdec Hne. unfold validate_authorization_response. rewrite Hdec.
  destruct (String.eqb_spec (definition_id (presentation_submission r)) (id pd)); [done|].
  reflexivity.
Qed.

(** C5 (amended). When the token decodes and the definition ids agree,
    an input descriptor without a descriptor-map entry of its id makes
    the validation fail (it never succeeds). The error is the
    missing-descriptor error when every input descriptor before the
    first one without an entry passes its descriptor-level validation;
    otherwise the failure of the first earlier descriptor that does not
    pass is reported. *)
Theorem missing_descriptor_fails (pd : PresentationDefinition.PresentationDefinition)
    (r : UnencodedAuthorizationResponse) (vp : VerifiablePresentation) :
  decode_unverified (vp_token r) = Some vp ->
  definition_id (presentation_submission r) = id pd ->
  (exists i, In i (input_descriptors pd) /\
             Forall (fun d => descriptor_map_id d <> input_descriptor_id i)
                    (descriptor_map (presentation_submission r))) ->
  (run pd (Unencoded r)).2 <> Ok () /\
  (forall pre i post, input_descriptors pd = pre ++ i :: post ->
     Forall (fun d => descriptor_map_id d <> input_descriptor_id i)
            (descriptor_map (presentation_submission r)) ->
     Forall (fun j => exists d,
               last (entries_for (input_descriptor_id j) (descriptor_map (presentation_submission r))) = Some d /\
               validate_verifiable_presentation j vp d = Ok ()) pre ->
     (run pd (Unencoded r)).2 = Err InputDescriptorIdNotFound) /\
  (forall pre1 j d pre2 i post, input_descriptors pd = pre1 ++ j :: pre2 ++ i :: post ->
     Forall (fun d => descriptor_map_id d <> input_descriptor_id i)
            (descriptor_map (presentation_submission r)) ->
     Forall (fun j' => exists d',
               last (entries_for (input_descriptor_id j') (descriptor_map (presentation_submission r))) = Some d' /\
               validate_verifiable_presentation j' vp d' = Ok ()) pre1 ->
     last (entries_for (input_descriptor_id j) (descriptor_map (presentation_submission r))) = Some d ->
     validate_verifiable_presentation j vp d <> Ok () ->
     (run pd (Unencoded r)).2 =
       match validate_verifiable_presentation j vp d with
       | Ok _ => Ok ()
       | Err e => Err (InputDescriptorValidationFailed e)
       | Panic msg => Panic msg
       end).
Proof.
  intros Hdec Hid (i & Hin & Hnone).
  unfold validate_authorization_response. rewrite Hdec, Hid, String.eqb_refl. cbn.
  split; [|split].
  - apply (check_missing_not_Ok _ _ _ i Hin). by apply no_entry_index_None.
  - intros pre j post Hids Hj Hpre. rewrite Hids.
    apply check_first_missing; [|by apply no_entry_index_None].
    eapply Forall_impl; [exact Hpre|]. intros x (d & Hd & Hv).
    exists d. rewrite index_lookup. done.
  - intros pre1 j d pre2 j' post Hids _ Hpre Hj Hv. rewrite Hids.
    apply check_first_failure; [| |exact Hv].
    + eapply Forall_impl; [exact Hpre|]. intros x (d' & Hd' & Hv').
      exists d'. rewrite index_lookup. done.
    + by rewrite index_lookup.
Qed.

Lemma index_drop_earlier_duplicate (l1 l2 : list DescriptorMap) (d : DescriptorMap) :
  (exists d', In d' l2 /\ descriptor_map_id d' = descriptor_map_id d) ->
  index (l1 ++ d :: l2) = index (l1 ++ l2).
Proof.
  intros (d' & Hin & Hid). apply map_eq. intros k.
  rewrite !index_lookup, !filter_app, filter_cons.
  case_decide as Hk; [|done].
  assert (Hl2 : is_Some (last (entries_for k l2))).
  { apply last_is_Some. intros Hnil.
    apply (filter_nil_not_elem_of _ l2 d' Hnil); [by rewrite Hid|].
    by apply list_elem_of_In. }
  destruct Hl2 as [y Hy].
  rewrite !last_app, last_cons, Hy. done.
Qed.

(** C9. The index of the descriptor map sends an id to the last entry
    with that id; dropping an entry that a later entry with the same id
    follows leaves the whole validation unchanged (earlier duplicates
    are dropped, no error is raised); and every descriptor-level call is
    made with the last entry of the descriptor's id. *)
Theorem duplicate_descriptor_ids_last_wins :
  (forall (dms : list DescriptorMap) (k : string), index dms !! k = last (entries_for k dms)) /\
  (forall (pd : PresentationDefinition.PresentationDefinition) tok sid did l1 d l2,
     (exists d', In d' l2 /\ descriptor_map_id d' = descriptor_map_id d) ->
     run pd (Unencoded {| vp_token := tok; presentation_submission :=
               {| submission_id := sid; definition_id := did; descriptor_map := l1 ++ d :: l2 |} |}) =
     run pd (Unencoded {| vp_token := tok; presentation_submission :=
               {| submission_id := sid; definition_id := did; descriptor_map := l1 ++ l2 |} |})) /\
  (forall (pd : PresentationDefinition.PresentationDefinition) r i d,
     In (i, d) (run pd (Unencoded r)).1 ->
     last (entries_for (input_descriptor_id i) (descriptor_map (presentation_submission r))) = Some d).
Proof.
  split; [exact index_lookup|]. split.
  - intros pd tok sid did l1 d l2 Hdup.
    unfold validate_authorization_response.
    cbn [presentation_submission descriptor_map vp_token definition_id].
    by rewrite (index_drop_earlier_duplicate l1 l2 d Hdup).
  - intros pd r i d. unfold validate_authorization_response.
    destruct (decode_unverified (vp_token r)) as [vp|]; cbn; [|done].
    destruct (negb _); cbn; [done|].
    intros Hcall. rewrite <- index_lookup. exact (check_calls_from_index _ _ _ _ _ Hcall).
Qed.

End Response.

End SubmissionFacts.

Module ExtraSubmissionFacts.
Import PresentationDefinition SubmissionFacts.

Section Response.
Context {VerifiablePresentation InputDescriptor DescriptorMap DescriptorError : Type}.
Context (input_descriptor_id : InputDescriptor -> string).
Context (descriptor_map_id : DescriptorMap -> string).
Context (decode_unverified : string -> option VerifiablePresentation).
Context (validate_verifiable_presentation :
           InputDescriptor -> VerifiablePresentation -> DescriptorMap ->
           outcome DescriptorError unit).

Local Abbreviation run := (validate_authorization_response input_descriptor_id descriptor_map_id
                         decode_unverified validate_verifiable_presentation).
Local Abbreviation check := (check_input_descriptors input_descriptor_id validate_verifiable_presentation).
Local Abbreviation index := (descriptor_map_index descriptor_map_id).
Local Abbreviation entries_for k dms := (filter (fun d => descriptor_map_id d = k) dms).

Lemma check_Ok (idx : gmap string DescriptorMap) vp ids :
  (check idx vp ids).2 = Ok () <->
  Forall (fun i => exists d, idx !! input_descriptor_id i = Some d /\
                             validate_verifiable_presentation i vp d = Ok ()) ids.
Proof.
  induction ids as [|i ids IH]; cbn; [split; [constructor|done]|].
  rewrite Forall_cons, <- IH.
  destruct (idx !! input_descriptor_id i) as [d|] eqn:Hi; cbn.
  - destruct (validate_verifiable_presentation i vp d) as [[]|e|msg] eqn:Hv; cbn.
    + destruct (check idx vp ids) as [calls r] eqn:Hc; cbn. split; [eauto|tauto].
    + split; [discriminate|]. intros [(d' & [= <-] & Hv') _]. congruence.
    + split; [discriminate|]. intros [(d' & [= <-] & Hv') _]. congruence.
  - split; [discriminate|]. intros [(d' & Hd' & _) _]. discriminate.
Qed.

(** The validation succeeds iff the response is unencoded (a JWT response
    never succeeds), its token decodes, the submission's definition id is
    the definition's id, and every input descriptor has a descriptor-map
    entry of its id whose last occurrence passes the descriptor-level
    validation. *)
Theorem validation_succeeds_iff (pd : PresentationDefinition.PresentationDefinition) (r : AuthorizationResponse) :
  (run pd r).2 = Ok () <->
  exists resp vp, r = Unencoded resp /\ decode_unverified (vp_token resp) = Some vp /\
    definition_id (presentation_submission resp) = id pd /\
    Forall (fun i => exists d,
              last (entries_for (input_descriptor_id i) (descriptor_map (presentation_submission resp))) = Some d /\
              validate_verifiable_presentation i vp d = Ok ()) (input_descriptors pd).
Proof.
  unfold validate_authorization_response.
  destruct r as [jwt|resp]; cbn.
  { split; [discriminate|]. intros (resp & vp & Hr & _). discriminate. }
  destruct (decode_unverified (vp_token resp)) as [vp|] eqn:Hdec; cbn.
  2: { split; [discriminate|]. intros (resp' & vp & [= <-] & Hd & _). congruence. }
  destruct (String.eqb_spec (definition_id (presentation_submission resp)) (id pd)) as [Hid|Hid]; cbn.
  - rewrite check_Ok. split.
    + intros Hall. exists resp, vp. split; [done|]. split; [done|]. split; [done|].
      eapply Forall_impl; [exact Hall|]. intros i (d & Hd & Hv). exists d. by rewrite <- index_lookup.
    + intros (resp' & vp' & [= <-] & Hd & _ & Hall). rewrite Hdec in Hd. injection Hd as <-.
      eapply Forall_impl; [exact Hall|]. intros i (d & Hd & Hv). exists d. by rewrite index_lookup.
  - split; [discriminate|]. intros (resp' & vp' & [= <-] & _ & Hid' & _). contradiction.
Qed.



Lemma check_failure_last_call (idx : gmap string DescriptorMap) vp ids e :
  (check idx vp ids).2 = Err (InputDescriptorValidationFailed e) ->
  exists calls i d, (check idx vp ids).1 = calls ++ [(i, d)] /\
    validate_verifiable_presentation i vp d = Err e /\
    Forall (fun c => validate_verifiable_presentation c.1 vp c.2 = Ok ()) calls.
Proof.
  induction ids as [|j ids IH]; cbn; [discriminate|].
  destruct (idx !! input_descriptor_id j) as [d|]; cbn; [|discriminate].
  destruct (validate_verifiable_presentation j vp d) as [[]|e'|msg] eqn:Hv; cbn.
  - destruct (check idx vp ids) as [calls r] eqn:Hc; cbn in *.
    intros Hr. destruct (IH Hr) as (calls' & i & d' & -> & Hi & Hall).
    exists ((j, d) :: calls'), i, d'. split; [done|]. split; [done|]. by constructor.
  - intros [= ->]. exists [], j, d. split; [done|]. split; [done|constructor].
  - discriminate.
Qed.

(** A descriptor-level failure comes from the last call made, and every
    call before it succeeded. *)
Theorem descriptor_failure_is_last_call (pd : PresentationDefinition.PresentationDefinition)
    (r : AuthorizationResponse) (e : DescriptorError) :
  (run pd r).2 = Err (InputDescriptorValidationFailed e) ->
  exists resp vp calls i d, r = Unencoded resp /\ decode_unverified (vp_token resp) = Some vp /\
    (run pd r).1 = calls ++ [(i, d)] /\
    validate_verifiable_presentation i vp d = Err e /\
    Forall (fun c => validate_verifiable_presentation c.1 vp c.2 = Ok ()) calls.
Proof.
  unfold validate_authorization_response.
  destruct r as [jwt|resp]; cbn; [discriminate|].
  destruct (decode_unverified (vp_token resp)) as [vp|] eqn:Hdec; cbn; [|discriminate].
  destruct (negb _); cbn; [discriminate|].
  intros Hr. destruct (check_failure_last_call _ _ _ _ Hr) as (calls & i & d & Hc & Hi & Hall).
  exists resp, vp, calls, i, d. done.
Qed.

(** After [add_input_descriptors pd d] a response is accepted iff [pd]
    accepts it and so does [new (id pd) d], the definition with [d] alone. *)
Theorem add_input_descriptors_requires_both (pd : PresentationDefinition.PresentationDefinition)
    (d : InputDescriptor) (r : AuthorizationResponse) :
  (run (add_input_descriptors pd d) r).2 = Ok () <->
  (run pd r).2 = Ok () /\ (run (new (id pd) d) r).2 = Ok ().
Proof.
  unfold validate_authorization_response.
  destruct r as [jwt|resp]; cbn -[check_input_descriptors]; [split; [discriminate|intros [Hr _]; discriminate]|].
  destruct (decode_unverified (vp_token resp)) as [vp|]; cbn -[check_input_descriptors];
    [|split; [discriminate|intros [Hr _]; discriminate]].
  destruct (negb _); cbn -[check_input_descriptors]; [split; [discriminate|intros [Hr _]; discriminate]|].
  rewrite !check_Ok, Forall_app. tauto.
Qed.

End Response.
End ExtraSubmissionFacts.

(* --------------------------------------------------------------------- *)
(* The theorems run on concrete inputs.                                  *)
(* --------------------------------------------------------------------- *)

Module Witnesses.
Import PresentationDefinition JsonSchemaValidation Conditions Fixtures.

Lemma definition_id_mismatch_fails_first_witness :
  test_decode "token" = Some tt /\ "other-definition" <> "did-key-id-proof" /\
  test_run (test_definition ["a"]) (test_response "other-definition" [("a", 1%nat)]) =
    ([], Err DefinitionIdMismatch).
Proof.
  split; [reflexivity|]. split; [discriminate|].
  exact (SubmissionFacts.definition_id_mismatch_fails_first (fun i : string => i)
           (fun d : string * nat => d.1) test_decode test_validate_vp
           (test_definition ["a"]) (test_unencoded "other-definition" [("a", 1%nat)]) tt
           eq_refl (ltac:(discriminate))).
Defined.

(** C5 (counterexample). The descriptor "b" has no entry, but the entry
    of "a" fails its descriptor-level validation first, so the error is
    that failure, not the missing-descriptor error. *)
Lemma missing_descriptor_reported_as_earlier_failure :
  Forall (fun d : string * nat => d.1 <> "b") [("a", 0%nat)] /\
  (test_run (test_definition ["a"; "b"]) (test_response "did-key-id-proof" [("a", 0%nat)])).2 =
    Err (InputDescriptorValidationFailed "constraint not satisfied") /\
  (test_run (test_definition ["a"; "b"]) (test_response "did-key-id-proof" [("a", 0%nat)])).2 <>
    Err InputDescriptorIdNotFound.
Proof.
  split; [constructor; [discriminate|constructor]|]. split; [reflexivity|]. cbn. discriminate.
Qed.

Lemma missing_descriptor_fails_witness :
  (test_run (test_definition ["a"; "b"]) (test_response "did-key-id-proof" [("a", 1%nat)])).2 <> Ok () /\
  (test_run (test_definition ["a"; "b"]) (test_response "did-key-id-proof" [("a", 1%nat)])).2 =
    Err InputDescriptorIdNotFound /\
  (test_run (test_definition ["a"; "b"]) (test_response "did-key-id-proof" [("a", 0%nat)])).2 =
    Err (InputDescriptorValidationFailed "constraint not satisfied").
Proof.
  assert (Hb : Forall (fun d : string * nat => d.1 <> "b") [("a", 1%nat)]).
  { constructor; [discriminate|constructor]. }
  assert (Hb0 : Forall (fun d : string * nat => d.1 <> "b") [("a", 0%nat)]).
  { constructor; [discriminate|constructor]. }
  destruct (SubmissionFacts.missing_descriptor_fails (fun i : string => i)
              (fun d : string * nat => d.1) test_decode test_validate_vp
              (test_definition ["a"; "b"]) (test_unencoded "did-key-id-proof" [("a", 1%nat)]) tt
              eq_refl eq_refl
              (ex_intro _ "b" (conj (or_intror (or_introl eq_refl)) Hb)))
    as [Hfail [Hfirst _]].
  destruct (SubmissionFacts.missing_descriptor_fails (fun i : string => i)
              (fun d : string * nat => d.1) test_decode test_validate_vp
              (test_definition ["a"; "b"]) (test_unencoded "did-key-id-proof" [("a", 0%nat)]) tt
              eq_refl eq_refl
              (ex_intro _ "b" (conj (or_intror (or_introl eq_refl)) Hb0)))
    as [_ [_ Hearlier]].
  split; [exact Hfail|]. split.
  - apply (Hfirst ["a"] "b" []); [reflexivity|exact Hb|].
    constructor; [|constructor]. exists ("a", 1%nat). split; reflexivity.
  - exact (Hearlier [] "a" ("a", 0%nat) [] "b" [] eq_refl Hb0 (List.Forall_nil _) eq_refl
             (ltac:(discriminate))).
Defined.

Lemma string_length_bounds_strict_witness :
  schema_type string_min_three = TString /\
  (@validate FragmentRegex.lib string_min_three (JString "abc") = Ok () <-> (3 < 3)%nat) /\
  @validate FragmentRegex.lib string_min_three (JString "abc") <> Ok ().
Proof.
  assert (Hiff : @validate FragmentRegex.lib string_min_three (JString "abc") = Ok () <-> (3 < 3)%nat).
  { exact (proj1 (@SchemaFacts.string_length_bounds_strict FragmentRegex.lib string_min_three "abc" eq_refl)
             3%nat eq_refl I I). }
  split; [reflexivity|]. split; [exact Hiff|].
  intros Hok. apply Hiff in Hok. lia.
Defined.

Lemma array_length_bounds_inclusive_witness :
  schema_type array_max_two = TArray /\
  (@validate FragmentRegex.lib array_max_two (JArray [JNull; JNull]) = Ok () <->
   array_min_ok array_max_two [JNull; JNull] /\ array_max_ok array_max_two [JNull; JNull]) /\
  @validate FragmentRegex.lib array_max_two (JArray [JNull; JNull]) = Ok ().
Proof.
  assert (Hiff := @SchemaFacts.array_length_bounds_inclusive FragmentRegex.lib array_max_two
                    [JNull; JNull] eq_refl I).
  split; [reflexivity|]. split; [exact Hiff|].
  apply Hiff. split; cbn; [exact I|lia].
Defined.

Lemma object_required_and_properties_witness :
  @validate FragmentRegex.lib required_a (JObject []) = Err (MissingRequiredProperty "a") /\
  @validate FragmentRegex.lib required_a (JObject [("a", one)]) = Ok ().
Proof.
  destruct (proj1 (@SchemaFacts.object_required_and_properties FragmentRegex.lib) required_a eq_refl eq_refl)
    as [Hempty Ha].
  split; [exact Hempty|]. apply Ha. constructor.
Defined.

Lemma duplicate_descriptor_ids_last_wins_witness :
  test_run (test_definition ["a"]) (test_response "did-key-id-proof" [("a", 0%nat); ("a", 1%nat)]) =
  test_run (test_definition ["a"]) (test_response "did-key-id-proof" [("a", 1%nat)]) /\
  test_run (test_definition ["a"]) (test_response "did-key-id-proof" [("a", 1%nat)]) =
    ([("a", ("a", 1%nat))], Ok ()).
Proof.
  destruct (SubmissionFacts.duplicate_descriptor_ids_last_wins (fun i : string => i)
              (fun d : string * nat => d.1) test_decode test_validate_vp) as [_ [Hdrop _]].
  split; [|reflexivity].
  exact (Hdrop (test_definition ["a"]) "token" "submission" "did-key-id-proof" [] ("a", 0%nat)
           [("a", 1%nat)] (ex_intro _ ("a", 1%nat) (conj (or_introl eq_refl) eq_refl))).
Defined.


End Witnesses.

(* --------------------------------------------------------------------- *)
(* The further theorems run on concrete inputs.                          *)
(* --------------------------------------------------------------------- *)

Module ExtraWitnesses.
Import PresentationDefinition JsonSchemaValidation Conditions Fixtures.
#[local] Existing Instance FragmentRegex.lib.

Lemma number_schema_Ok_witness :
  finite_bounds number_one_to_ten_halves /\ number_bounds_ok number_one_to_ten_halves (5 # 2) /\
  validate number_one_to_ten_halves (JNumber (Float (F64Fin (5 # 2)))) = Ok ().
Proof.
  assert (Hfin : finite_bounds number_one_to_ten_halves) by (unfold finite_bounds, finite_bound; cbn; tauto).
  assert (Hok : number_bounds_ok number_one_to_ten_halves (5 # 2)).
  { unfold number_bounds_ok; cbn.
    split; [lra|]. split; [exact I|]. split; [exact I|]. split; [lra|].
    split; [intros Hz; discriminate Hz|]. exists 5. reflexivity. }
  split; [exact Hfin|]. split; [exact Hok|].
  exact (proj2 (ExtraSchemaFacts.number_schema_Ok number_one_to_ten_halves (JNumber (Float (F64Fin (5 # 2)))) (5 # 2)
                  eq_refl Hfin eq_refl) Hok).
Defined.

Lemma integer_schema_Ok_witness :
  ~ integer_range_ok integer_maximum_five_halves 2 /\
  validate integer_maximum_five_halves (JNumber (PosInt 2)) <> Ok ().
Proof.
  assert (Hn : ~ integer_range_ok integer_maximum_five_halves 2).
  { unfold integer_range_ok; cbn. intros (_ & H2 & _). vm_compute in H2. discriminate H2. }
  split; [exact Hn|]. intros Hok.
  apply (ExtraSchemaFacts.integer_schema_Ok integer_maximum_five_halves (JNumber (PosInt 2)) 2 eq_refl eq_refl) in Hok.
  exact (Hn (proj1 Hok)).
Defined.

Lemma integer_schema_panics_witness :
  exists msg, validate integer_multiple_of_minus_one (JNumber (NegInt i64_min)) = Panic msg.
Proof.
  apply (ExtraSchemaFacts.integer_schema_panics integer_multiple_of_minus_one (JNumber (NegInt i64_min)) i64_min eq_refl eq_refl).
  split; [unfold integer_range_ok; cbn; tauto|]. exists (F64Fin (-1)). split; [reflexivity|]. right. split; reflexivity.
Defined.

Lemma validate_panics_only_with_integer_multiple_of_witness :
  integer_multiple_of_set object_number_halves = false /\
  validate object_number_halves (JObject [("n", JNumber (PosInt 3))]) = Ok () /\
  validate object_number_halves (JObject [("n", JNumber (PosInt 3))]) <>
    Panic "attempt to calculate the remainder with a divisor of zero".
Proof.
  split; [reflexivity|]. split; [vm_compute; reflexivity|].
  exact (ExtraSchemaFacts.validate_panics_only_with_integer_multiple_of object_number_halves eq_refl
           (JObject [("n", JNumber (PosInt 3))]) "attempt to calculate the remainder with a divisor of zero").
Defined.

Lemma array_item_error_index_witness :
  validate array_of_strings (JArray [JString "a"; JNull; JBool true]) =
    Err (ErrorInArrayItem 1 ExpectedString).
Proof.
  apply (ExtraSchemaFacts.array_item_error_index array_of_strings (new TString) [JString "a"] JNull
           [JBool true] ExpectedString eq_refl eq_refl I I); [|reflexivity].
  constructor; [reflexivity|constructor].
Defined.

Lemma object_errors_classified_witness :
  validate object_a_string_b_required (JObject [("a", JNull); ("b", JNull)]) =
    Err (ErrorInProperty "a" ExpectedString) /\
  ((exists q, In q (required object_a_string_b_required) /\
              obj_contains_key [("a", JNull); ("b", JNull)] q = false /\
              ErrorInProperty "a" ExpectedString = MissingRequiredProperty q) \/
   (Forall (fun q => obj_contains_key [("a", JNull); ("b", JNull)] q = true) (required object_a_string_b_required) /\
    exists k c v e', In (k, c) (properties object_a_string_b_required) /\
      obj_get [("a", JNull); ("b", JNull)] k = Some v /\ validate c v = Err e' /\
      ErrorInProperty "a" ExpectedString = ErrorInProperty k e')).
Proof.
  assert (He : validate object_a_string_b_required (JObject [("a", JNull); ("b", JNull)]) =
                 Err (ErrorInProperty "a" ExpectedString)) by (vm_compute; reflexivity).
  split; [exact He|].
  exact (ExtraSchemaFacts.object_errors_classified object_a_string_b_required _ _ eq_refl He).
Defined.

Lemma first_missing_required_reported_witness :
  validate required_a_b_c (JObject [("a", one)]) = Err (MissingRequiredProperty "b").
Proof.
  apply (ExtraSchemaFacts.first_missing_required_reported required_a_b_c [("a", one)] ["a"] "b" ["c"]
           eq_refl eq_refl); [|reflexivity].
  constructor; [reflexivity|constructor].
Defined.

Lemma undeclared_keys_ignored_witness :
  validate object_a_string (JObject [("a", JString "x")]) = Ok () /\
  validate object_a_string (JObject [("a", JString "x"); ("z", JNull)]) = Ok ().
Proof.
  assert (Hok : validate object_a_string (JObject [("a", JString "x")]) = Ok ()) by reflexivity.
  split; [exact Hok|].
  apply (ExtraSchemaFacts.undeclared_keys_ignored object_a_string [("a", JString "x")] [("z", JNull)]
           eq_refl); [|exact Hok].
  constructor; [|constructor]. constructor; [|constructor]. cbn. discriminate.
Defined.

Lemma add_property_fresh_key_witness :
  validate (new TObject) (JObject [("a", JNull)]) = Ok () /\
  validate (add_property "a" (new TString) (new TObject)) (JObject [("a", JNull)]) <> Ok ().
Proof.
  split; [reflexivity|]. intros Hok.
  apply (ExtraSchemaFacts.add_property_fresh_key (new TObject) (new TString) "a" [("a", JNull)]
           eq_refl eq_refl) in Hok.
  destruct Hok as [_ Ha]. specialize (Ha JNull eq_refl). discriminate Ha.
Defined.

Lemma add_required_checks_key_witness :
  validate (new TObject) (JObject [("a", one)]) = Ok () /\
  validate (add_required "b" (new TObject)) (JObject [("a", one)]) <> Ok ().
Proof.
  split; [reflexivity|]. intros Hok.
  apply (ExtraSchemaFacts.add_required_checks_key (new TObject) "b" [("a", one)] eq_refl) in Hok.
  destruct Hok as [_ Hb]. discriminate Hb.
Defined.

Lemma validation_succeeds_iff_witness :
  (test_run (test_definition ["a"; "b"]) (test_response "did-key-id-proof" [("a", 1%nat); ("b", 2%nat)])).2 = Ok ().
Proof.
  apply (ExtraSubmissionFacts.validation_succeeds_iff (fun i : string => i) (fun d : string * nat => d.1)
           test_decode test_validate_vp).
  exists (test_unencoded "did-key-id-proof" [("a", 1%nat); ("b", 2%nat)]), tt.
  split; [reflexivity|]. split; [reflexivity|]. split; [reflexivity|].
  constructor; [|constructor; [|constructor]].
  - exists ("a", 1%nat). split; reflexivity.
  - exists ("b", 2%nat). split; reflexivity.
Defined.


Lemma descriptor_failure_is_last_call_witness :
  exists resp vp calls i d,
    test_response "did-key-id-proof" [("a", 1%nat); ("b", 0%nat); ("c", 1%nat)] = Unencoded resp /\
    test_decode (vp_token resp) = Some vp /\
    (test_run (test_definition ["a"; "b"; "c"])
       (test_response "did-key-id-proof" [("a", 1%nat); ("b", 0%nat); ("c", 1%nat)])).1 = calls ++ [(i, d)] /\
    test_validate_vp i vp d = Err "constraint not satisfied" /\
    Forall (fun c => test_validate_vp c.1 vp c.2 = Ok ()) calls.
Proof.
  apply (ExtraSubmissionFacts.descriptor_failure_is_last_call (fun i : string => i)
           (fun d : string * nat => d.1) test_decode test_validate_vp).
  reflexivity.
Defined.

Lemma add_input_descriptors_requires_both_witness :
  (test_run (PresentationDefinition.new "did-key-id-proof" "a")
     (test_response "did-key-id-proof" [("a", 1%nat); ("b", 0%nat)])).2 = Ok () /\
  (test_run (add_input_descriptors (PresentationDefinition.new "did-key-id-proof" "a") "b")
     (test_response "did-key-id-proof" [("a", 1%nat); ("b", 0%nat)])).2 <> Ok ().
Proof.
  split; [reflexivity|]. intros Hok.
  apply (ExtraSubmissionFacts.add_input_descriptors_requires_both (fun i : string => i)
           (fun d : string * nat => d.1) test_decode test_validate_vp) in Hok.
  destruct Hok as [_ Hb]. discriminate Hb.
Defined.

End ExtraWitnesses.
